(** * Report filter transformations of [report_cli.py]

    A shallow embedding of the [ReportParser] class (the four filter
    transformations) and of the [ReportCli] commands that fetch a report,
    transform it and post it back when it changed, together with the
    properties of these functions.

    Modelling conventions.
    - A report is the Python object built by [json.loads]: [None], [bool],
      [int], [str], [list] and [dict] with [str] keys.  JSON reals are left
      out of the model; no function of the program inspects a number.
    - A [dict] is an association list in insertion order.  A Python [dict]
      never holds a key twice; [Py.valid] states this invariant and is
      assumed only where a result depends on it.
    - A [str] is a [string] whose characters stand for the code points
      U+0000 to U+00FF.
    - A Python exception is the [Raise] branch of [Py.result].
    - The objects produced by [json.loads] form a tree (no object is reachable
      twice), so the in-place updates of the program are modelled by
      rebuilding the enclosing object. *)

From Stdlib Require Import List String Ascii ZArith Bool Arith Lia.
Import ListNotations.
Local Open Scope string_scope.
Local Open Scope list_scope.

(** ** Python values and the primitives the program uses *)

Module Py.

Inductive exn : Set :=
| KeyError
| TypeError
| AttributeError
| ValueError
| OSError.

Inductive result (A : Type) : Type :=
| Ok (a : A)
| Raise (e : exn).
Arguments Ok {A} a.
Arguments Raise {A} e.

Definition bind {A B : Type} (m : result A) (k : A -> result B) : result B :=
  match m with
  | Ok a => k a
  | Raise e => Raise e
  end.

Fixpoint mapM {A B : Type} (f : A -> result B) (l : list A) : result (list B) :=
  match l with
  | [] => Ok []
  | x :: r =>
      bind (f x) (fun y => bind (mapM f r) (fun ys => Ok (y :: ys)))
  end.

Unset Elimination Schemes.
Inductive value : Type :=
| VNone
| VBool (b : bool)
| VInt (n : Z)
| VStr (s : string)
| VList (l : list value)
| VDict (d : list (string * value)).
Set Elimination Schemes.


(** Induction on values, with the hypothesis for every element of a list and
    for every value of a dictionary. *)
Section ValueInd.

Variable P : value -> Prop.
Hypothesis HNone : P VNone.
Hypothesis HBool : forall b, P (VBool b).
Hypothesis HInt : forall n, P (VInt n).
Hypothesis HStr : forall s, P (VStr s).
Hypothesis HList : forall l, Forall P l -> P (VList l).
Hypothesis HDict : forall d, Forall (fun kv => P (snd kv)) d -> P (VDict d).

Fixpoint value_ind (v : value) : P v :=
  match v with
  | VNone => HNone
  | VBool b => HBool b
  | VInt n => HInt n
  | VStr s => HStr s
  | VList l =>
      HList l ((fix all (l : list value) : Forall P l :=
                  match l with
                  | [] => Forall_nil P
                  | x :: r => Forall_cons x (value_ind x) (all r)
                  end) l)
  | VDict d =>
      HDict d ((fix all (d : list (string * value))
                  : Forall (fun kv => P (snd kv)) d :=
                  match d with
                  | [] => Forall_nil _
                  | kv :: r => Forall_cons kv (value_ind (snd kv)) (all r)
                  end) d)
  end.

End ValueInd.

Definition dict : Type := list (string * value).

(** Association lists keyed by strings: [d.get(k)], [k in d], [d[k] = v]
    (the entry keeps its place when the key is there, and goes last when it
    is not) and [del d[k]]. *)
Fixpoint lookup {A : Type} (k : string) (d : list (string * A)) : option A :=
  match d with
  | [] => None
  | (j, v) :: r => if String.eqb j k then Some v else lookup k r
  end.

Definition has_key {A : Type} (k : string) (d : list (string * A)) : bool :=
  match lookup k d with
  | Some _ => true
  | None => false
  end.

Fixpoint dict_set {A : Type} (k : string) (v : A) (d : list (string * A))
  : list (string * A) :=
  match d with
  | [] => [(k, v)]
  | (j, w) :: r =>
      if String.eqb j k then (j, v) :: r else (j, w) :: dict_set k v r
  end.

Definition dict_del {A : Type} (k : string) (d : list (string * A))
  : list (string * A) :=
  filter (fun kv => negb (String.eqb (fst kv) k)) d.

Definition keys {A : Type} (d : list (string * A)) : list string :=
  map fst d.

Fixpoint mem (k : string) (l : list string) : bool :=
  match l with
  | [] => false
  | j :: r => String.eqb j k || mem k r
  end.

Fixpoint nodupb (l : list string) : bool :=
  match l with
  | [] => true
  | j :: r => negb (mem j r) && nodupb r
  end.

(** The invariant of Python dictionaries: no key occurs twice, at any
    depth. *)
Fixpoint valid (v : value) : bool :=
  match v with
  | VList l => forallb valid l
  | VDict d =>
      nodupb (map fst d) && forallb (fun kv => valid (snd kv)) d
  | _ => true
  end.

(** [a == b].  [bool] is a subclass of [int], so [True == 1]; lists are
    compared position by position; two dictionaries are equal when they have
    the same number of entries and every key of the first maps to an equal
    value in the second, whatever the order of the entries. *)
Fixpoint all2 {A : Type} (p : A -> A -> bool) (l l' : list A) : bool :=
  match l, l' with
  | [], [] => true
  | x :: r, y :: r' => p x y && all2 p r r'
  | _, _ => false
  end.

Fixpoint py_eq (a b : value) : bool :=
  match a, b with
  | VNone, VNone => true
  | VBool x, VBool y => Bool.eqb x y
  | VBool x, VInt n => Z.eqb (if x then 1 else 0) n
  | VInt n, VBool x => Z.eqb n (if x then 1 else 0)
  | VInt n, VInt m => Z.eqb n m
  | VStr s, VStr t => String.eqb s t
  | VList l, VList l' => all2 py_eq l l'
  | VDict d, VDict d' =>
      Nat.eqb (List.length d) (List.length d') &&
      forallb (fun kv => match lookup (fst kv) d' with
                         | Some v' => py_eq (snd kv) v'
                         | None => false
                         end) d
  | _, _ => false
  end.

Definition py_ne (a b : value) : bool := negb (py_eq a b).

(** [copy.deepcopy]: every list and dictionary is rebuilt. *)
Fixpoint deepcopy (v : value) : value :=
  match v with
  | VList l => VList (map deepcopy l)
  | VDict d => VDict (map (fun kv => (fst kv, deepcopy (snd kv))) d)
  | _ => v
  end.

(** [needle in hay] for two strings. *)
Fixpoint substr (needle hay : string) : bool :=
  if String.prefix needle hay then true
  else match hay with
       | EmptyString => false
       | String _ r => substr needle r
       end.

(** [k in v] for a string [k]. *)
Definition contains (k : string) (v : value) : result bool :=
  match v with
  | VDict d => Ok (has_key k d)
  | VList l => Ok (existsb (py_eq (VStr k)) l)
  | VStr s => Ok (substr k s)
  | _ => Raise TypeError
  end.

(** [v[k]] for a string [k]. *)
Definition getitem (v : value) (k : string) : result value :=
  match v with
  | VDict d =>
      match lookup k d with
      | Some x => Ok x
      | None => Raise KeyError
      end
  | _ => Raise TypeError
  end.

(** [v[k] = x] for a string [k]. *)
Definition setitem (v : value) (k : string) (x : value) : result value :=
  match v with
  | VDict d => Ok (VDict (dict_set k x d))
  | _ => Raise TypeError
  end.

(** [del v[k]] for a string [k]. *)
Definition delitem (v : value) (k : string) : result value :=
  match v with
  | VDict d => if has_key k d then Ok (VDict (dict_del k d)) else Raise KeyError
  | _ => Raise TypeError
  end.

(** [v.items()]. *)
Definition items (v : value) : result (list (string * value)) :=
  match v with
  | VDict d => Ok d
  | _ => Raise AttributeError
  end.

(** The elements a [for] loop over [v] visits: the elements of a list, the
    keys of a dictionary, the characters of a string. *)
Definition iter (v : value) : result (list value) :=
  match v with
  | VList l => Ok l
  | VDict d => Ok (map (fun kv => VStr (fst kv)) d)
  | VStr s => Ok (map (fun c => VStr (String c EmptyString)) (list_ascii_of_string s))
  | _ => Raise TypeError
  end.

(** The state of a container after a loop has updated the objects it visited
    in place: a list holds the updated elements; the keys of a dictionary and
    the characters of a string are immutable. *)
Definition write_back (container : value) (elems : list value) : value :=
  match container with
  | VList _ => VList elems
  | _ => container
  end.

(** The object [x] once the object stored under its key [k] has become [v]. *)
Definition put (x : value) (k : string) (v : value) : value :=
  match x with
  | VDict d => VDict (dict_set k v d)
  | _ => x
  end.

End Py.

Import Py.

Declare Scope py_scope.
Notation "x <- m ;; k" := (bind m (fun x => k))
  (at level 61, m at next level, right associativity) : py_scope.
Local Open Scope py_scope.

(** ** class ReportParser *)

Module ReportParser.

Definition PERSISTENT_FILTERS : list string := ["Connection"; "Platform"].

Definition filter_code_to_name_map : list (string * string) :=
  [ ("ea", "Endpoint Agents");
    ("eal", "Endpoint Agent Labels");
    ("loc", "Location");
    ("pn", "Private Network");
    ("net", "Network");
    ("mn", "Monitored Network") ].

(** The loop all four methods are written around:
<<
    for w in report['widgets']:
        if 'numberCards' in w:
            for c in w['numberCards']:
                stmt(c)
        elif 'filters' in w:
            stmt(w)
>>
    where [stmt] is the statement of the method, the same for a card and for
    a widget. *)
Definition for_cards (stmt : value -> result value) (w : value) : result value :=
  cs <- getitem w "numberCards" ;;
  cards <- iter cs ;;
  cards' <- mapM stmt cards ;;
  Ok (put w "numberCards" (write_back cs cards')).

Definition for_widget (stmt : value -> result value) (w : value) : result value :=
  composite <- contains "numberCards" w ;;
  if (composite : bool) then for_cards stmt w
  else
    simple <- contains "filters" w ;;
    if (simple : bool) then stmt w else Ok w.

Definition for_widgets (stmt : value -> result value) (report : value)
  : result value :=
  ws <- getitem report "widgets" ;;
  widgets <- iter ws ;;
  widgets' <- mapM (for_widget stmt) widgets ;;
  Ok (put report "widgets" (write_back ws widgets')).

(** [{k: v if k in self.PERSISTENT_FILTERS else [] for k, v in items}] *)
Definition template_filters (its : list (string * value)) : list (string * value) :=
  map (fun kv => (fst kv, if mem (fst kv) PERSISTENT_FILTERS then snd kv else VList []))
      its.

(** [x['filters'] = {... for k, v in x['filters'].items()}] *)
Definition template_stmt (x : value) : result value :=
  f <- getitem x "filters" ;;
  its <- items f ;;
  setitem x "filters" (VDict (template_filters its)).

Definition get_template_report (raw_report : value) : result value :=
  let report := deepcopy raw_report in
  for_widgets template_stmt report.

Definition not_supported (filter_code : string) : string :=
  "The filter code " ++ filter_code ++ " is not supported" ++ String "010" "".

(** [{k: new_filter_values if k == filter_name else v for k, v in items}] *)
Definition changed_filters (filter_name : string) (new_filter_values : value)
  (its : list (string * value)) : list (string * value) :=
  map (fun kv => (fst kv, if String.eqb (fst kv) filter_name
                          then new_filter_values else snd kv))
      its.

Definition change_stmt (filter_name : string) (new_filter_values : value)
  (x : value) : result value :=
  f <- getitem x "filters" ;;
  its <- items f ;;
  setitem x "filters" (VDict (changed_filters filter_name new_filter_values its)).

(** The code-taking methods return what they printed with their result. *)
Definition change_filter_value (raw_report : value) (filter_code : string)
  (new_filter_values : value) : list string * result value :=
  match lookup filter_code filter_code_to_name_map with
  | None => ([not_supported filter_code], Ok raw_report)
  | Some filter_name =>
      let report := deepcopy raw_report in
      ([], for_widgets (change_stmt filter_name new_filter_values) report)
  end.

(** [x['filters'][filter_name] = new_filter_values] *)
Definition add_stmt (filter_name : string) (new_filter_values : value)
  (x : value) : result value :=
  f <- getitem x "filters" ;;
  f' <- setitem f filter_name new_filter_values ;;
  Ok (put x "filters" f').

Definition add_filter_value (raw_report : value) (filter_code : string)
  (new_filter_values : value) : list string * result value :=
  match lookup filter_code filter_code_to_name_map with
  | None => ([not_supported filter_code], Ok raw_report)
  | Some filter_name =>
      let report := deepcopy raw_report in
      ([], for_widgets (add_stmt filter_name new_filter_values) report)
  end.

(** [if filter_name in x['filters']: del x['filters'][filter_name]] *)
Definition remove_stmt (filter_name : string) (x : value) : result value :=
  f <- getitem x "filters" ;;
  present <- contains filter_name f ;;
  if (present : bool) then
    f0 <- getitem x "filters" ;;
    f' <- delitem f0 filter_name ;;
    Ok (put x "filters" f')
  else Ok x.

Definition remove_filter (raw_report : value) (filter_code : string)
  : list string * result value :=
  match lookup filter_code filter_code_to_name_map with
  | None => ([not_supported filter_code], Ok raw_report)
  | Some filter_name =>
      let report := deepcopy raw_report in
      ([], for_widgets (remove_stmt filter_name) report)
  end.

End ReportParser.

Import ReportParser.

(** ** Strings: the [str] methods the commands call *)

Module Str.

Definition between (lo hi n : nat) : bool := Nat.leb lo n && Nat.leb n hi.

(** [c.lower()] on U+0000..U+00FF: A-Z, and the Latin-1 capitals U+00C0 to
    U+00DE but for the multiplication sign U+00D7. *)
Definition lower_char (c : ascii) : ascii :=
  let n := nat_of_ascii c in
  if between 65 90 n || (between 192 222 n && negb (Nat.eqb n 215))
  then ascii_of_nat (n + 32) else c.

Fixpoint lower (s : string) : string :=
  match s with
  | EmptyString => EmptyString
  | String c r => String (lower_char c) (lower r)
  end.

(** [c.isspace()] on U+0000..U+00FF. *)
Definition isspace (c : ascii) : bool :=
  let n := nat_of_ascii c in
  between 9 13 n || between 28 32 n || Nat.eqb n 133 || Nat.eqb n 160.

(** The line boundaries of [str.splitlines] on U+0000..U+00FF. *)
Definition is_linebreak (c : ascii) : bool :=
  let n := nat_of_ascii c in
  between 10 13 n || between 28 30 n || Nat.eqb n 133.

Definition LF : ascii := "010"%char.
Definition CR : ascii := "013"%char.

Definition is_empty (s : string) : bool :=
  match s with
  | EmptyString => true
  | String _ _ => false
  end.

Fixpoint lstrip (s : string) : string :=
  match s with
  | EmptyString => EmptyString
  | String c r => if isspace c then lstrip r else s
  end.

Fixpoint rstrip (s : string) : string :=
  match s with
  | EmptyString => EmptyString
  | String c r =>
      let r' := rstrip r in
      if isspace c && is_empty r' then EmptyString else String c r'
  end.

(** [s.strip()] *)
Definition strip (s : string) : string := rstrip (lstrip s).

(** [s.splitlines()]; [cur] is the line being read.  A carriage return
    followed by a line feed is one boundary, and the text after the last
    boundary is a line only when it is not empty. *)
Fixpoint splitlines_from (cur s : string) : list string :=
  match s with
  | EmptyString => if is_empty cur then [] else [cur]
  | String c r =>
      if is_linebreak c then
        cur :: match r with
               | String c' r' =>
                   if Ascii.eqb c CR && Ascii.eqb c' LF
                   then splitlines_from EmptyString r'
                   else splitlines_from EmptyString r
               | EmptyString => splitlines_from EmptyString r
               end
      else splitlines_from (cur ++ String c EmptyString) r
  end.

Definition splitlines (s : string) : list string := splitlines_from EmptyString s.

(** [s.split()]: the maximal runs of characters that are not white space. *)
Definition flush (cur : string) : list string :=
  if is_empty cur then [] else [cur].

Fixpoint split_from (cur s : string) : list string :=
  match s with
  | EmptyString => flush cur
  | String c r =>
      if isspace c then flush cur ++ split_from EmptyString r
      else split_from (cur ++ String c EmptyString) r
  end.

Definition split (s : string) : list string := split_from EmptyString s.

(** What [f.read()] returns for a file opened in text mode with the default
    [newline=None]: every carriage return, with the line feed after it if
    there is one, is read as one line feed. *)
Fixpoint universal_newlines (s : string) : string :=
  match s with
  | EmptyString => EmptyString
  | String c r =>
      if Ascii.eqb c CR then
        String LF match r with
                  | String c' r' =>
                      if Ascii.eqb c' LF then universal_newlines r'
                      else universal_newlines r
                  | EmptyString => universal_newlines r
                  end
      else String c (universal_newlines r)
  end.

End Str.

(** ** class ReportCli *)

Module ReportCli.

Definition query : Type := list (string * string).

(** What a command does to the outside: requests sent, files opened, lines
    printed. *)
Inductive event : Type :=
| EGet (url : string) (params : query)
| EPost (url : string) (params : query) (json : value)
| EOpen (file_name : string)
| EPrint (text : string).

(** The response of [requests] to a GET: [r.ok] and [r.text]. *)
Record response : Type := mkResponse { ok : bool; text : string }.

(** The collaborators of the commands: the remote service, the file system
    and the [json] library. *)
Record world : Type := mkWorld {
  http_get : string -> query -> response;
  file_content : string -> option string;
  json_loads : string -> result value
}.

(** [self.session.params] and the events so far. *)
Record state : Type := mkState { params : query; trace : list event }.

Definition cli (A : Type) : Type := state -> result A * state.

Definition ret {A : Type} (a : A) : cli A := fun s => (Ok a, s).

Definition cbind {A B : Type} (m : cli A) (k : A -> cli B) : cli B :=
  fun s =>
    match m s with
    | (Ok a, s') => k a s'
    | (Raise e, s') => (Raise e, s')
    end.

Definition lift {A : Type} (r : result A) : cli A := fun s => (r, s).

Definition emit (e : event) : cli unit :=
  fun s => (Ok tt, mkState (params s) (trace s ++ [e])).

Definition print (text : string) : cli unit := emit (EPrint text).

Definition get_params : cli query := fun s => (Ok (params s), s).

Definition set_params (p : query) : cli unit :=
  fun s => (Ok tt, mkState p (trace s)).

Fixpoint print_all (lines : list string) : cli unit :=
  match lines with
  | [] => ret tt
  | l :: r => cbind (print l) (fun _ => print_all r)
  end.

Declare Scope cli_scope.
Notation "x <- m ;; k" := (cbind m (fun x => k))
  (at level 61, m at next level, right associativity) : cli_scope.
Notation "m ;;; k" := (cbind m (fun _ => k))
  (at level 61, right associativity) : cli_scope.
Local Open Scope cli_scope.

Definition NL : string := String Str.LF EmptyString.

Definition INVALID_ARGUMENTS_MSG : string :=
  "Very invalid arguments over there" ++ NL.

Definition REPORT_API_BASE : string := "https://api.thousandeyes.com/v7/reports".

Definition report_url (report_id : string) : string :=
  REPORT_API_BASE ++ "/" ++ report_id.

Definition update_url (report_id : string) : string :=
  REPORT_API_BASE ++ "/" ++ report_id ++ "/update".

Definition parse_arg (arg : string) : list string := Str.split arg.

Section Commands.

Variable W : world.

(** [get_report]: [None] is [VNone], also when the service answers the JSON
    text [null]. *)
Definition get_report (report_id : string) : cli value :=
  p <- get_params ;;
  emit (EGet (report_url report_id) p) ;;;
  let r := http_get W (report_url report_id) p in
  if negb (ok r) then
    print ("Report with id " ++ report_id ++ " does not exist" ++ NL) ;;;
    ret VNone
  else lift (json_loads W (text r)).

Definition is_None (v : value) : bool :=
  match v with
  | VNone => true
  | _ => false
  end.

(** [with open(file_name, 'r') as f: f.read()] *)
Definition read_text (file_name : string) : cli string :=
  emit (EOpen file_name) ;;;
  match file_content W file_name with
  | Some s => ret (Str.universal_newlines s)
  | None => lift (Raise OSError)
  end.

(** [list(map(lambda x: x.strip(), text.splitlines()))] *)
Definition read_values (text : string) : list string :=
  map Str.strip (Str.splitlines text).

Definition str_list (l : list string) : value := VList (map VStr l).

(** The end of both [update_report_filter] and [do_remove_filter]: post the
    new report when it is not equal to the one fetched. *)
Definition submit_if_changed (report_id : string) (raw_report new_report : value)
  : cli unit :=
  if py_ne new_report raw_report then
    p <- get_params ;;
    emit (EPost (update_url report_id) p new_report) ;;;
    print ("Done!" ++ NL)
  else ret tt.

(** [update_report_filter(args, report_parser_func)]; [args] has three
    elements at both call sites. *)
Definition update_report_filter (args : list string)
  (report_parser_func : value -> string -> value -> list string * result value)
  : cli bool :=
  match args with
  | [report_id; filter_code; file_name] =>
      raw_report <- get_report report_id ;;
      if is_None raw_report then ret false
      else
        contents <- read_text file_name ;;
        let values := str_list (read_values contents) in
        let run := report_parser_func raw_report (Str.lower filter_code) values in
        print_all (fst run) ;;;
        new_report <- lift (snd run) ;;
        submit_if_changed report_id raw_report new_report ;;;
        set_params [] ;;;
        ret false
  | _ => lift (Raise ValueError)
  end.

(** The commands, after [args = parse_arg(arg)]. *)
Definition add_filter_args (args : list string) : cli bool :=
  match args with
  | [_; _; _] =>
      set_params [] ;;;
      update_report_filter (firstn 3 args) add_filter_value
  | [_; _; _; aid] =>
      set_params [("aid", aid)] ;;;
      update_report_filter (firstn 3 args) add_filter_value
  | _ => print INVALID_ARGUMENTS_MSG ;;; ret false
  end.

Definition do_add_filter (arg : string) : cli bool :=
  add_filter_args (parse_arg arg).

Definition change_filter_value_args (args : list string) : cli bool :=
  match args with
  | [_; _; _] =>
      set_params [] ;;;
      update_report_filter (firstn 3 args) change_filter_value
  | [_; _; _; aid] =>
      set_params [("aid", aid)] ;;;
      update_report_filter (firstn 3 args) change_filter_value
  | _ => print INVALID_ARGUMENTS_MSG ;;; ret false
  end.

Definition do_change_filter_value (arg : string) : cli bool :=
  change_filter_value_args (parse_arg arg).

Definition remove_filter_body (report_id filter_code : string) : cli bool :=
  raw_report <- get_report report_id ;;
  if is_None raw_report then ret false
  else
    let run := remove_filter raw_report (Str.lower filter_code) in
    print_all (fst run) ;;;
    new_report <- lift (snd run) ;;
    submit_if_changed report_id raw_report new_report ;;;
    set_params [] ;;;
    ret false.

Definition remove_filter_args (args : list string) : cli bool :=
  match args with
  | [report_id; filter_code] =>
      set_params [] ;;;
      remove_filter_body report_id filter_code
  | [report_id; filter_code; aid] =>
      set_params [("aid", aid)] ;;;
      remove_filter_body report_id filter_code
  | _ => print INVALID_ARGUMENTS_MSG ;;; ret false
  end.

Definition do_remove_filter (arg : string) : cli bool :=
  remove_filter_args (parse_arg arg).

End Commands.

(** The reports a run has posted, oldest first. *)
Fixpoint posts (tr : list event) : list (string * value) :=
  match tr with
  | [] => []
  | EPost url _ json :: r => (url, json) :: posts r
  | _ :: r => posts r
  end.

Fixpoint printed (tr : list event) : list string :=
  match tr with
  | [] => []
  | EPrint s :: r => s :: printed r
  | _ :: r => printed r
  end.

End ReportCli.

Import ReportCli.

(** ** The shape of a report and its filter maps

    A report is a dictionary whose ['widgets'] entry is a list of widgets.  A
    widget is a dictionary: composite when it has a ['numberCards'] entry, a
    list of cards that each have a filter map under ['filters']; simple when
    it has no cards and a filter map under ['filters']; a widget with neither
    entry has no filter map. *)

Definition wf_card (c : value) : bool :=
  match c with
  | VDict d =>
      match lookup "filters" d with
      | Some (VDict _) => true
      | _ => false
      end
  | _ => false
  end.

Definition wf_widget (w : value) : bool :=
  match w with
  | VDict d =>
      match lookup "numberCards" d with
      | Some (VList cs) => forallb wf_card cs
      | Some _ => false
      | None =>
          match lookup "filters" d with
          | Some (VDict _) => true
          | Some _ => false
          | None => true
          end
      end
  | _ => false
  end.

Definition wf_report (D : value) : bool :=
  match D with
  | VDict d =>
      match lookup "widgets" d with
      | Some (VList ws) => forallb wf_widget ws
      | _ => false
      end
  | _ => false
  end.

(** The document walker: the report in which every filter map [m] (the one
    of each simple widget and the one of each card of each composite widget)
    is replaced by [f m], and nothing else differs. *)
Definition walk_card (f : dict -> dict) (c : value) : value :=
  match c with
  | VDict d =>
      match lookup "filters" d with
      | Some (VDict m) => VDict (dict_set "filters" (VDict (f m)) d)
      | _ => c
      end
  | _ => c
  end.

Definition walk_widget (f : dict -> dict) (w : value) : value :=
  match w with
  | VDict d =>
      match lookup "numberCards" d with
      | Some (VList cs) =>
          VDict (dict_set "numberCards" (VList (map (walk_card f) cs)) d)
      | Some _ => w
      | None => walk_card f w
      end
  | _ => w
  end.

Definition walk (f : dict -> dict) (D : value) : value :=
  match D with
  | VDict d =>
      match lookup "widgets" d with
      | Some (VList ws) =>
          VDict (dict_set "widgets" (VList (map (walk_widget f) ws)) d)
      | _ => D
      end
  | _ => D
  end.

(** The filter maps of a report, in the order of its widgets and cards. *)
Definition card_filter_maps (c : value) : list dict :=
  match c with
  | VDict d =>
      match lookup "filters" d with
      | Some (VDict m) => [m]
      | _ => []
      end
  | _ => []
  end.

Definition widget_filter_maps (w : value) : list dict :=
  match w with
  | VDict d =>
      match lookup "numberCards" d with
      | Some (VList cs) => flat_map card_filter_maps cs
      | Some _ => []
      | None => card_filter_maps w
      end
  | _ => []
  end.

Definition filter_maps (D : value) : list dict :=
  match D with
  | VDict d =>
      match lookup "widgets" d with
      | Some (VList ws) => flat_map widget_filter_maps ws
      | _ => []
      end
  | _ => []
  end.

(** Everything of a report but the contents of its filter maps: the entries
    of the report, its widgets in their order with all their entries, the
    cards of each composite widget in their order with all their entries,
    each filter map emptied. *)
Definition skeleton (D : value) : value := walk (fun _ => []) D.

(** The widgets of a report and the cards of a widget, as sequences. *)
Definition widgets_of (D : value) : list value :=
  match D with
  | VDict d =>
      match lookup "widgets" d with
      | Some (VList ws) => ws
      | _ => []
      end
  | _ => []
  end.

Definition cards_of (w : value) : list value :=
  match w with
  | VDict d =>
      match lookup "numberCards" d with
      | Some (VList cs) => cs
      | _ => []
      end
  | _ => []
  end.

(** A statement of a method does to an object with a filter map what the
    walker does with the visitor [f]. *)
Definition stmt_refines (stmt : value -> result value) (f : dict -> dict) : Prop :=
  forall d m, lookup "filters" d = Some (VDict m) ->
    stmt (VDict d) = Ok (VDict (dict_set "filters" (VDict (f m)) d)).

(** ** Relating a report and its transform

    [same_layout D D']: the two reports differ at most in the contents of
    their filter maps.  Their skeletons are equal; widget by widget, in
    order, and card by card, in order, the objects are equal up to their
    filter maps. *)
Definition same_layout (D D' : value) : Prop :=
  skeleton D' = skeleton D /\
  Forall2 (fun w w' =>
             walk_widget (fun _ => []) w' = walk_widget (fun _ => []) w /\
             Forall2 (fun c c' => walk_card (fun _ => []) c' = walk_card (fun _ => []) c)
                     (cards_of w) (cards_of w'))
          (widgets_of D) (widgets_of D').

(** [transforms_to r R D]: the method returned a report, laid out as [D],
    whose filter maps are related one by one, in order, to those of [D] by
    [R]. *)
Definition transforms_to (r : result value) (R : dict -> dict -> Prop) (D : value)
  : Prop :=
  exists D', r = Ok D' /\ same_layout D D' /\
             Forall2 R (filter_maps D) (filter_maps D').

(** What the four methods may do to one filter map [m], giving [m']. *)

(** The keys are those of [m] in the same order; a key other than
    ['Connection'] and ['Platform'] maps to the empty list, and these two
    keep their values. *)
Definition templatized (m m' : dict) : Prop :=
  keys m' = keys m /\
  forall k v, lookup k m = Some v ->
    lookup k m' =
      Some (if String.eqb k "Connection" || String.eqb k "Platform"
            then v else VList []).

Definition same_keys (m m' : dict) : Prop := keys m' = keys m.

(** The keys of [m], and the target after them when it is new. *)
Definition keys_with (target : option string) (m m' : dict) : Prop :=
  match target with
  | Some name =>
      keys m' = if has_key name m then keys m else keys m ++ [name]
  | None => keys m' = keys m
  end.

(** The keys of [m] but the target. *)
Definition keys_without (target : option string) (m m' : dict) : Prop :=
  match target with
  | Some name => keys m' = filter (fun k => negb (String.eqb k name)) (keys m)
  | None => keys m' = keys m
  end.

(** [name] gets the new values where it is a key of [m]; it is not made a
    key where it is not, and [m'] is then [m]. *)
Definition replaced (name : string) (vals : value) (m m' : dict) : Prop :=
  keys m' = keys m /\
  (forall k, k <> name -> lookup k m' = lookup k m) /\
  lookup name m' = (if has_key name m then Some vals else None) /\
  (has_key name m = false -> m' = m).

(** [name] maps to the new values whether or not it was a key of [m]. *)
Definition added (name : string) (vals : value) (m m' : dict) : Prop :=
  lookup name m' = Some vals /\
  (forall k, k <> name -> lookup k m' = lookup k m) /\
  keys m' = (if has_key name m then keys m else keys m ++ [name]).

(** No key of [m'] is new. *)
Definition no_new_key (m m' : dict) : Prop := incl (keys m') (keys m).

Definition persistent_kept (m m' : dict) : Prop :=
  lookup "Connection" m' = lookup "Connection" m /\
  lookup "Platform" m' = lookup "Platform" m.

(** No code of the registry names a persistent filter. *)
Definition targets_no_persistent (code : string) : Prop :=
  match lookup code filter_code_to_name_map with
  | Some name => mem name PERSISTENT_FILTERS = false
  | None => True
  end.

(** ** Files of values

    The text of a file whose lines are [lines], each ended by a line feed,
    followed by [last], the text after the last line feed. *)
Fixpoint unlines (lines : list string) (last : string) : string :=
  match lines with
  | [] => last
  | l :: r => l ++ NL ++ unlines r last
  end.

(** A text without line boundary. *)
Fixpoint one_line (l : string) : bool :=
  match l with
  | EmptyString => true
  | String c r => negb (Str.is_linebreak c) && one_line r
  end.

(** The lines of [unlines lines last]: [last] counts when it is not
    empty. *)
Definition lines_of (lines : list string) (last : string) : list string :=
  lines ++ Str.flush last.

(** The line endings of a file: line feed, carriage return, carriage return
    and line feed, and the other boundaries of [str.splitlines] on
    U+0000..U+00FF (vertical tab, form feed, file, group and record
    separator, next line). *)
Inductive eol : Set :=
| E_LF | E_CR | E_CRLF | E_VT | E_FF | E_FS | E_GS | E_RS | E_NEL.

Definition eol_text (e : eol) : string :=
  match e with
  | E_LF => String Str.LF EmptyString
  | E_CR => String Str.CR EmptyString
  | E_CRLF => String Str.CR (String Str.LF EmptyString)
  | E_VT => String "011" EmptyString
  | E_FF => String "012" EmptyString
  | E_FS => String "028" EmptyString
  | E_GS => String "029" EmptyString
  | E_RS => String "030" EmptyString
  | E_NEL => String "133" EmptyString
  end.

(** The text of a file whose lines are the first components of [ls], each
    followed by its ending, and then [last], the text after the last
    ending. *)
Fixpoint join_lines (ls : list (string * eol)) (last : string) : string :=
  match ls with
  | [] => last
  | (l, e) :: r => l ++ eol_text e ++ join_lines r last
  end.

Definition starts_lf (s : string) : bool :=
  match s with
  | EmptyString => false
  | String c _ => Ascii.eqb c Str.LF
  end.

Definition is_cr (e : eol) : bool :=
  match e with
  | E_CR => true
  | _ => false
  end.

(** [ls] and [last] cut a text into its lines: no line and not [last] holds
    a line boundary, and a carriage return that ends a line is not followed
    by a line feed (the two together are the ending [E_CRLF]). *)
Fixpoint well_split (ls : list (string * eol)) (last : string) : bool :=
  match ls with
  | [] => one_line last
  | (l, e) :: r =>
      one_line l && negb (is_cr e && starts_lf (join_lines r last))
      && well_split r last
  end.

(** ** Runs of the commands *)

(** The scope a command takes from the arguments after the ones it needs:
    none, or one account group. *)
Definition scope_params (extra : list string) : option query :=
  match extra with
  | [] => Some []
  | [aid] => Some [("aid", aid)]
  | _ => None
  end.

(** Under the parameters [p], the service has the report [raw] for
    [report_id]. *)
Definition fetched (W : world) (p : query) (report_id : string) (raw : value)
  : Prop :=
  ok (http_get W (report_url report_id) p) = true /\
  json_loads W (text (http_get W (report_url report_id) p)) = Ok raw /\
  is_None raw = false.

(** The run [r], started in [before], ended normally; it posted [new] to the
    update address of the report, and then printed ["Done!"], if [new] is not
    equal to [raw]; otherwise it posted nothing and printed no more than the
    method did ([out]). *)
Definition decided (r : result bool * state) (before : state)
  (report_id : string) (raw new : value) (out : list string) : Prop :=
  fst r = Ok false /\
  posts (trace (snd r)) =
    posts (trace before) ++
    (if py_eq new raw then [] else [(update_url report_id, new)]) /\
  printed (trace (snd r)) =
    printed (trace before) ++ out ++
    (if py_eq new raw then [] else [("Done!" ++ NL)%string]).

(** The run [r] ended normally, posted nothing and printed that [code] is
    not supported. *)
Definition rejected (r : result bool * state) (before : state) (code : string)
  : Prop :=
  fst r = Ok false /\
  posts (trace (snd r)) = posts (trace before) /\
  printed (trace (snd r)) = printed (trace before) ++ [not_supported code].

(** ** Sample reports *)

(** One simple widget. *)
Definition scenario_a : value :=
  VDict [("title", VStr "Weekly");
         ("widgets", VList [
            VDict [("type", VStr "table");
                   ("filters", VDict [("Connection", VList [VStr "x"]);
                                      ("Location", VList [VStr "y"])])]])].

(** One composite widget of two cards, and a widget without filters. *)
Definition scenario_b : value :=
  VDict [("widgets", VList [
            VDict [("numberCards", VList [
                      VDict [("filters", VDict [("Platform", VList [VStr "p1"])])];
                      VDict [("id", VInt 2);
                             ("filters", VDict [("Platform", VList [VStr "p1"])])]])];
            VDict [("type", VStr "text")]]);
         ("id", VInt 7)].

(** The service answers every GET with [{"widgets": ...}] as [scenario_a];
    there is one values file. *)
Definition sample_world : world :=
  mkWorld (fun _ _ => mkResponse true "scenario a")
          (fun name => if String.eqb name "values.txt"
                       then Some ("a1" ++ NL ++ " a2 " ++ NL)%string else None)
          (fun _ => Ok scenario_a).

Definition start : state := mkState [] [].

(** ** More about the four methods *)

(** The method did not return: it raised an exception. *)
Definition fails {A : Type} (r : result A) : Prop := exists e, r = Raise e.

(** What the loop leaves alone in a widget [w], giving [w']: a widget with
    cards keeps the ['filters'] entry it may have beside them, and a widget
    with neither cards nor ['filters'] is unchanged. *)
Definition untouched (w w' : value) : Prop :=
  match w with
  | VDict d =>
      match lookup "numberCards" d with
      | Some _ => getitem w' "filters" = getitem w "filters"
      | None =>
          match lookup "filters" d with
          | Some _ => True
          | None => w' = w
          end
      end
  | _ => True
  end.

(** A report with a composite widget one of whose cards is a dictionary
    without a ['filters'] entry. *)
Definition bare_card (c : value) : bool :=
  match c with
  | VDict dc => negb (has_key "filters" dc)
  | _ => false
  end.

Definition has_bare_card_widget (w : value) : bool :=
  match w with
  | VDict dw =>
      match lookup "numberCards" dw with
      | Some (VList cs) => existsb bare_card cs
      | _ => false
      end
  | _ => false
  end.

Definition has_bare_card (D : value) : bool :=
  match D with
  | VDict d =>
      match lookup "widgets" d with
      | Some (VList ws) => existsb has_bare_card_widget ws
      | _ => false
      end
  | _ => false
  end.

(** One composite widget whose second card has no filter map. *)
Definition bare_card_report : value :=
  VDict [("widgets", VList [
            VDict [("numberCards", VList [
                      VDict [("filters", VDict [("Location", VList [])])];
                      VDict [("id", VInt 2)]])]])].

(** A widget with cards and a ['filters'] entry of its own, and a widget
    with neither. *)
Definition mixed_report : value :=
  VDict [("widgets", VList [
            VDict [("numberCards", VList [
                      VDict [("filters", VDict [("Location", VList [VStr "y"])])]]);
                   ("filters", VDict [("Location", VList [VStr "w"])])];
            VDict [("type", VStr "text")]])].

(** A report whose only filter map already holds the values of the sample
    values file for ['Location']. *)
Definition located_report : value :=
  VDict [("widgets", VList [
            VDict [("filters", VDict [("Location", VList [VStr "a1"; VStr "a2"])])]])].

Definition located_world : world :=
  mkWorld (fun _ _ => mkResponse true "located")
          (fun name => if String.eqb name "values.txt"
                       then Some ("a1" ++ NL ++ " a2 " ++ NL)%string else None)
          (fun _ => Ok located_report).

(** ** More about the runs of the commands *)

(** The message of [get_report] for a report the service does not give. *)
Definition not_found (report_id : string) : string :=
  "Report with id " ++ report_id ++ " does not exist" ++ NL.

(** A service without the report: every answer is refused. *)
Definition empty_world : world :=
  mkWorld (fun _ _ => mkResponse false "")
          (fun _ => None)
          (fun _ => Raise ValueError).

(** A service that answers every request with the JSON text [null]. *)
Definition null_world : world :=
  mkWorld (fun _ _ => mkResponse true "null")
          (fun _ => Some "a1")
          (fun _ => Ok VNone).

(** A service that holds a report with a card without filter map. *)
Definition bare_card_world : world :=
  mkWorld (fun _ _ => mkResponse true "bare")
          (fun _ => Some "a1")
          (fun _ => Ok bare_card_report).

(** The number of arguments is one of [n] and [n + 1]. *)
Definition arity (n : nat) (args : list string) : bool :=
  Nat.eqb (List.length args) n || Nat.eqb (List.length args) (S n).

(** The events of a run: what it added to the trace it started with. *)
Definition posts_of (r : result bool * state) : list (string * value) :=
  posts (trace (snd r)).

(** The posts [after] a run are the posts [before] it and at most one more,
    to [url]. *)
Definition at_most_one_post (url : string) (before after : list (string * value))
  : Prop :=
  exists l, after = before ++ l /\ (l = [] \/ exists new, l = [(url, new)]).

(** A computation that posts nothing, and one that posts at most once, to
    [url]. *)
Definition quiet {A : Type} (m : cli A) : Prop :=
  forall st, posts (trace (snd (m st))) = posts (trace st).

Definition posts_once {A : Type} (url : string) (m : cli A) : Prop :=
  forall st, at_most_one_post url (posts (trace st)) (posts (trace (snd (m st)))).

(** ** Command lines and values *)

(** A text of white space only, and a text without white space. *)
Fixpoint blank (s : string) : bool :=
  match s with
  | EmptyString => true
  | String c r => Str.isspace c && blank r
  end.

Fixpoint no_space (s : string) : bool :=
  match s with
  | EmptyString => true
  | String c r => negb (Str.isspace c) && no_space r
  end.

(** An argument: not empty, without white space. *)
Definition word (s : string) : bool := negb (Str.is_empty s) && no_space s.

(** A command line: words, each followed by the white space that separates
    it from the next; only the last word may have none after it. *)
Fixpoint spaced (ws : list (string * string)) : string :=
  match ws with
  | [] => EmptyString
  | (w, gap) :: r => w ++ gap ++ spaced r
  end.

Fixpoint well_spaced (ws : list (string * string)) : bool :=
  match ws with
  | [] => true
  | (w, gap) :: r =>
      word w && blank gap &&
      (negb (Str.is_empty gap) || match r with [] => true | _ => false end) &&
      well_spaced r
  end.

(** A value as the commands pass it to the methods: [strip] leaves it as it
    is and it holds no line boundary. *)
Definition clean (v : string) : Prop := Str.strip v = v /\ one_line v = true.

(** ** The other commands of ReportCli and class ArgParser

    The commands that save what they get to a file, and the export of a
    report to another account group.  Their runs are logged as [io] events:
    the events of the commands above, the opening of a file for writing and
    what is written to it, the prompts shown by [input], and the POST that
    [requests.post] sends to create a report. *)

Module Shell.

Inductive io : Type :=
| Ev (e : event)
| OpenW (file_name : string)
| Write (file_name text : string)
| Input (prompt : string)
| Create (url : string) (params : query) (auth : string * string) (json : value).

(** What the command reads of the response to the creating POST: the tests
    [r.status_code is 401] and [r is None or r.text is None]. *)
Record creation : Type := mkCreation { is_401 : bool; no_text : bool }.

(** The collaborators these commands need beside those of [world]:
    [json.dumps(v, indent=4)], whether a file can be opened for writing, what
    the user types at a prompt, the response to a creating POST, and
    [self.session.auth]. *)
Record services : Type := mkServices {
  json_dumps : value -> string;
  can_write : string -> bool;
  answer : string -> string;
  create : string -> query -> string * string -> value -> creation;
  session_auth : string * string
}.

(** [self.session.params] and the events so far. *)
Record shell : Type := mkShell { sparams : query; log : list io }.

Definition sh (A : Type) : Type := shell -> result A * shell.

Definition sret {A : Type} (a : A) : sh A := fun s => (Ok a, s).

Definition sbind {A B : Type} (m : sh A) (k : A -> sh B) : sh B :=
  fun s =>
    match m s with
    | (Ok a, s') => k a s'
    | (Raise e, s') => (Raise e, s')
    end.

Definition slift {A : Type} (r : result A) : sh A := fun s => (r, s).

Definition say (e : io) : sh unit :=
  fun s => (Ok tt, mkShell (sparams s) (log s ++ [e])).

Definition sprint (text : string) : sh unit := say (Ev (EPrint text)).

Definition get_sparams : sh query := fun s => (Ok (sparams s), s).

Definition set_sparams (p : query) : sh unit :=
  fun s => (Ok tt, mkShell p (log s)).

(** A computation of the commands above, run in this session: its events
    are logged as they are. *)
Definition session {A : Type} (m : cli A) : sh A :=
  fun s =>
    let r := m (mkState (sparams s) []) in
    (fst r, mkShell (params (snd r)) (log s ++ map Ev (trace (snd r)))).

Declare Scope sh_scope.
Notation "x <- m ;; k" := (sbind m (fun x => k))
  (at level 61, m at next level, right associativity) : sh_scope.
Notation "m ;;; k" := (sbind m (fun _ => k))
  (at level 61, right associativity) : sh_scope.
Local Open Scope sh_scope.

Definition API_BASE : string := "https://api.thousandeyes.com/v7".

Definition create_url : string := REPORT_API_BASE ++ "/create".

Definition saved_msg : string := "All saved in the file!" ++ NL.

Definition error_msg : string := "Error :(" ++ NL.

Section Commands.

Variable W : world.
Variable S : services.

(** [with open(file_name, 'w') as f:] *)
Definition open_w (file_name : string) : sh unit :=
  say (OpenW file_name) ;;;
  if can_write S file_name then sret tt else slift (Raise OSError).

(** [f.write(text)] *)
Definition write (file_name text : string) : sh unit :=
  say (Write file_name text).

(** [self.session.get(url)] *)
Definition session_get (url : string) : sh response :=
  p <- get_sparams ;;
  say (Ev (EGet url p)) ;;;
  sret (http_get W url p).

(** [input(prompt)] *)
Definition input (prompt : string) : sh string :=
  say (Input prompt) ;;;
  sret (answer S prompt).

(** [do_get_report], after the scope is set. *)
Definition get_report_body (report_id destination : string) : sh bool :=
  sprint "Getting your report" ;;;
  report <- session (get_report W report_id) ;;
  if is_None report then sret false
  else
    open_w destination ;;;
    write destination (json_dumps S report) ;;;
    sprint ("Your report is saved!" ++ NL) ;;;
    set_sparams [] ;;;
    sret false.

Definition get_report_args (args : list string) : sh bool :=
  match args with
  | [report_id; destination] =>
      set_sparams [] ;;;
      get_report_body report_id destination
  | [report_id; destination; aid] =>
      set_sparams [("aid", aid)] ;;;
      get_report_body report_id destination
  | _ => sprint INVALID_ARGUMENTS_MSG ;;; sret false
  end.

Definition do_get_report (arg : string) : sh bool :=
  get_report_args (parse_arg arg).

(** [do_get_template], after the scope is set: the file is opened before the
    template is computed. *)
Definition get_template_body (report_id destination : string) : sh bool :=
  sprint "Getting your template report" ;;;
  report <- session (get_report W report_id) ;;
  if is_None report then sret false
  else
    open_w destination ;;;
    template <- slift (get_template_report report) ;;
    write destination (json_dumps S template) ;;;
    sprint ("Your template report is saved!" ++ NL) ;;;
    set_sparams [] ;;;
    sret false.

Definition get_template_args (args : list string) : sh bool :=
  match args with
  | [report_id; destination] =>
      set_sparams [] ;;;
      get_template_body report_id destination
  | [report_id; destination; aid] =>
      set_sparams [("aid", aid)] ;;;
      get_template_body report_id destination
  | _ => sprint INVALID_ARGUMENTS_MSG ;;; sret false
  end.

Definition do_get_template (arg : string) : sh bool :=
  get_template_args (parse_arg arg).

Definition data_type_to_api_url_map : list (string * string) :=
  [ ("ea", (API_BASE ++ "/endpoint-agents.json")%string);
    ("eal", (API_BASE ++ "/groups/endpoint-agents.json")%string);
    ("pn", (API_BASE ++ "/endpoint-data/networks.json")%string) ].

(** [r.txt]: a response has no such attribute. *)
Definition txt (r : response) : result string := Raise AttributeError.

Definition get_endpoint_data_args (args : list string) : sh bool :=
  match args with
  | [data_type_code; destination_file_name] =>
      let data_type_code := Str.lower data_type_code in
      (if has_key data_type_code data_type_to_api_url_map then sret tt
       else sprint ("Unsupported data type code " ++ data_type_code)) ;;;
      api_url <- slift (match lookup data_type_code data_type_to_api_url_map with
                        | Some url => Ok url
                        | None => Raise KeyError
                        end) ;;
      r <- session_get api_url ;;
      if negb (ok r) then sprint error_msg ;;; sret false
      else
        t <- slift (txt r) ;;
        _ <- slift (json_loads W t) ;;
        open_w destination_file_name ;;;
        v <- slift (json_loads W (text r)) ;;
        write destination_file_name (json_dumps S v) ;;;
        sprint saved_msg ;;;
        sret false
  | _ => sprint INVALID_ARGUMENTS_MSG ;;; sret false
  end.

Definition do_get_endpoint_data (arg : string) : sh bool :=
  get_endpoint_data_args (parse_arg arg).

Definition find_endpoint_agent_args (args : list string) : sh bool :=
  match args with
  | destination :: _ :: _ =>
      r <- session_get (API_BASE ++ "/endpoint-agents.json") ;;
      if negb (ok r) then sprint error_msg ;;; sret false
      else
        open_w destination ;;;
        v <- slift (json_loads W (text r)) ;;
        write destination (json_dumps S v) ;;;
        sprint saved_msg ;;;
        sret false
  | _ => sprint INVALID_ARGUMENTS_MSG ;;; sret false
  end.

Definition do_find_endpoint_agent (arg : string) : sh bool :=
  find_endpoint_agent_args (parse_arg arg).

Definition positive_answer : list string :=
  ["yes"; "Yes"; "YES"; "ye"; "Ye"; "Y"; "y"; "yep"; "Yep"; "Yarp"; "yarp"].

Definition rename_prompt : string :=
  "Would you like to rename your export report? [y/n]" ++ NL.

Definition name_prompt : string :=
  "Please give me the new name you want for the report." ++ NL.

Definition not_authorised_msg : string :=
  "You are not authorised, check your credential for the destination account group."
  ++ NL.

Definition went_wrong_msg : string := "Something went wrong :/" ++ NL.

Definition exported_msg (dest_acc_group_id : string) : string :=
  "Your report is successfully exported to account group " ++ dest_acc_group_id
  ++ "!" ++ NL.

(** [do_export_to_acc_group], once [auth] is chosen. *)
Definition export_body (auth : string * string)
  (report_id src_acc_group_id dest_acc_group_id : string) : sh bool :=
  set_sparams [("aid", src_acc_group_id)] ;;;
  report <- session (get_report W report_id) ;;
  if is_None report then sret false
  else
    a <- input rename_prompt ;;
    report <- (if mem a positive_answer then
                 new_name <- input name_prompt ;;
                 slift (setitem report "title" (VStr new_name))
               else sret report) ;;
    say (Create create_url [("aid", dest_acc_group_id)] auth report) ;;;
    let r := create S create_url [("aid", dest_acc_group_id)] auth report in
    (if is_401 r then sprint not_authorised_msg
     else if no_text r then sprint went_wrong_msg
     else sprint (exported_msg dest_acc_group_id)) ;;;
    set_sparams [] ;;;
    sret false.

Definition export_to_acc_group_args (args : list string) : sh bool :=
  match args with
  | [report_id; src; dest] =>
      export_body (session_auth S) report_id src dest
  | [report_id; src; dest; username; token] =>
      export_body (username, token) report_id src dest
  | _ => sprint INVALID_ARGUMENTS_MSG ;;; sret false
  end.

Definition do_export_to_acc_group (arg : string) : sh bool :=
  export_to_acc_group_args (parse_arg arg).

End Commands.

(** What a run has sent with POST, to update or to create, oldest first. *)
Fixpoint sent (l : list io) : list (string * value) :=
  match l with
  | [] => []
  | Ev (EPost url _ json) :: r => (url, json) :: sent r
  | Create url _ _ json :: r => (url, json) :: sent r
  | _ :: r => sent r
  end.

(** The files a run has opened for writing or written to. *)
Fixpoint touched (l : list io) : list string :=
  match l with
  | [] => []
  | OpenW f :: r => f :: touched r
  | Write f _ :: r => f :: touched r
  | _ :: r => touched r
  end.

End Shell.

(** ** class ArgParser

    What [ArgParser()] does with [args.username] and [args.token] (each
    [None] when neither the command line nor the environment gives it):
    print a message and [exit(2)], or keep the two strings. *)

Module ArgParser.

Inductive outcome : Type :=
| Exit (message : string) (status : Z)
| Ready (username token : string).

(** [not s or not s.strip()] *)
Definition erroneous (s : option string) : bool :=
  match s with
  | None => true
  | Some x => Str.is_empty x || Str.is_empty (Str.strip x)
  end.

(** [F'{s}'] *)
Definition show (s : option string) : string :=
  match s with
  | None => "None"
  | Some x => x
  end.

Definition init (username token : option string) : outcome :=
  if erroneous username then Exit ("Erroneous username: " ++ show username) 2
  else if erroneous token then Exit ("Erroneous token: " ++ show token) 2
  else Ready (show username) (show token).

End ArgParser.

Import Shell.

(** ** Runs of the other commands *)

(** The credentials of the creating POST, from the arguments after the three
    the export needs: those of the session, or a username and a token. *)
Definition export_auth (S : services) (extra : list string)
  : option (string * string) :=
  match extra with
  | [] => Some (session_auth S)
  | [username; token] => Some (username, token)
  | _ => None
  end.

(** The message the export prints for the response to its POST. *)
Definition export_msg (r : creation) (dest_acc_group_id : string) : string :=
  if is_401 r then not_authorised_msg
  else if no_text r then went_wrong_msg
  else exported_msg dest_acc_group_id.

(** A computation that leaves a view [f] of the log as it is. *)
Definition keeps {X A : Type} (f : list io -> list X) (m : sh A) : Prop :=
  forall st, f (log (snd (m st))) = f (log st).

(** Every file can be written; the user answers ["y"] to the first
    question and types a name at the second. *)
Definition sample_services : services :=
  mkServices (fun v => match v with
                       | VDict d => String.concat "," (keys d)
                       | _ => "?"
                       end)
             (fun _ => true)
             (fun prompt => if String.eqb prompt rename_prompt then "y" else "Copy")
             (fun _ _ _ _ => mkCreation false false)
             ("user", "token").

(** The user declines the renaming. *)
Definition declining_services : services :=
  mkServices (fun _ => "?") (fun _ => true) (fun _ => "n")
             (fun _ _ _ _ => mkCreation false false) ("user", "token").

(** A service that holds a list where a report is expected. *)
Definition list_world : world :=
  mkWorld (fun _ _ => mkResponse true "[]") (fun _ => None)
          (fun _ => Ok (VList [])).

Definition shell_start : shell := mkShell [] [].

(** A computation that sends at most one POST, to [url]. *)
Definition sends_once {A : Type} (url : string) (m : sh A) : Prop :=
  forall st, at_most_one_post url (sent (log st)) (sent (log (snd (m st)))).

(** The run of [get_endpoint_data] on a data type and a destination, case by
    case. *)
Definition endpoint_data_outcome (W : world) (data_type_code : string) (st : shell)
  : result bool * shell :=
  match lookup (Str.lower data_type_code) data_type_to_api_url_map with
  | None =>
      (Raise KeyError,
       mkShell (sparams st)
               (log st ++ [Ev (EPrint ("Unsupported data type code "
                                       ++ Str.lower data_type_code))]))
  | Some url =>
      if ok (http_get W url (sparams st)) then
        (Raise AttributeError,
         mkShell (sparams st) (log st ++ [Ev (EGet url (sparams st))]))
      else
        (Ok false,
         mkShell (sparams st)
                 (log st ++ [Ev (EGet url (sparams st)); Ev (EPrint error_msg)]))
  end.

(** The report the export creates from the dictionary [d] it fetched: [d]
    with the title the user typed when the answer to the first question is
    one of [positive_answer], and [d] as it is otherwise. *)
Definition exported (S : services) (d : dict) : value :=
  if mem (answer S rename_prompt) positive_answer
  then VDict (dict_set "title" (VStr (answer S name_prompt)) d)
  else VDict d.

(** The prompts the export shows. *)
Definition export_prompts (S : services) : list io :=
  if mem (answer S rename_prompt) positive_answer
  then [Input rename_prompt; Input name_prompt]
  else [Input rename_prompt].

Definition is_dict (v : value) : bool :=
  match v with
  | VDict _ => true
  | _ => false
  end.

(** A service that lists the endpoint agents. *)
Definition agents_world : world :=
  mkWorld (fun _ _ => mkResponse true "agents") (fun _ => None)
          (fun _ => Ok (VDict [("agents", VList [VDict [("agentName", VStr "pc-1")]])])).

(** ** Properties *)

(** *** Values *)

Lemma deepcopy_same (v : value) : deepcopy v = v.
Proof.
  induction v using value_ind; simpl; trivial.
  - f_equal. induction H as [|x r Hx _ IH]; simpl; [reflexivity|].
    now rewrite Hx, IH.
  - f_equal. induction H as [|[k x] r Hx _ IH]; simpl in *; [reflexivity|].
    now rewrite Hx, IH.
Qed.

(** *** Association lists *)

Lemma lookup_set_same {A} (k : string) (v : A) d :
  lookup k (dict_set k v d) = Some v.
Proof.
  induction d as [|[j w] r IH]; simpl.
  - now rewrite String.eqb_refl.
  - destruct (String.eqb j k) eqn:E; simpl; now rewrite E.
Qed.

Lemma lookup_set_other {A} (j k : string) (v : A) d :
  j <> k -> lookup j (dict_set k v d) = lookup j d.
Proof.
  intros N. induction d as [|[i w] r IH]; simpl.
  - destruct (String.eqb_spec k j); [congruence|reflexivity].
  - destruct (String.eqb_spec i k) as [->|Nk]; simpl.
    + destruct (String.eqb_spec k j); [congruence|reflexivity].
    + now rewrite IH.
Qed.

Lemma set_set {A} (k : string) (v v' : A) d :
  dict_set k v' (dict_set k v d) = dict_set k v' d.
Proof.
  induction d as [|[j w] r IH]; simpl.
  - now rewrite String.eqb_refl.
  - destruct (String.eqb j k) eqn:E; simpl; rewrite E; [reflexivity|].
    now rewrite IH.
Qed.

Lemma set_same {A} (k : string) (v : A) d :
  lookup k d = Some v -> dict_set k v d = d.
Proof.
  induction d as [|[j w] r IH]; simpl; [discriminate|].
  destruct (String.eqb j k) eqn:E.
  - now intros [= ->].
  - intros H. now rewrite IH.
Qed.

Lemma keys_set_present {A} (k : string) (v x : A) d :
  lookup k d = Some x -> keys (dict_set k v d) = keys d.
Proof.
  unfold keys. induction d as [|[j w] r IH]; simpl; [discriminate|].
  destruct (String.eqb j k) eqn:E; simpl; [reflexivity|].
  intros H. now rewrite IH.
Qed.

Lemma keys_set_absent {A} (k : string) (v : A) d :
  lookup k d = None -> keys (dict_set k v d) = keys d ++ [k].
Proof.
  unfold keys. induction d as [|[j w] r IH]; simpl; [reflexivity|].
  destruct (String.eqb j k) eqn:E; simpl; [discriminate|].
  intros H. now rewrite IH.
Qed.



Lemma lookup_del_other {A} (j k : string) (d : list (string * A)) :
  j <> k -> lookup j (dict_del k d) = lookup j d.
Proof.
  intros N. unfold dict_del.
  induction d as [|[i w] r IH]; simpl; [reflexivity|].
  destruct (String.eqb_spec i k) as [->|Nk]; simpl.
  - destruct (String.eqb_spec k j); [congruence|assumption].
  - now rewrite IH.
Qed.

Lemma lookup_del_same {A} (k : string) (d : list (string * A)) :
  lookup k (dict_del k d) = None.
Proof.
  unfold dict_del. induction d as [|[i w] r IH]; simpl; [reflexivity|].
  destruct (String.eqb i k) eqn:E; simpl; [assumption|].
  now rewrite E.
Qed.

Lemma del_absent {A} (k : string) (d : list (string * A)) :
  lookup k d = None -> dict_del k d = d.
Proof.
  unfold dict_del. induction d as [|[i w] r IH]; simpl; [reflexivity|].
  destruct (String.eqb i k) eqn:E; simpl; [discriminate|].
  intros H. now rewrite IH.
Qed.

Lemma del_del {A} (k : string) (d : list (string * A)) :
  dict_del k (dict_del k d) = dict_del k d.
Proof. apply del_absent, lookup_del_same. Qed.

Lemma keys_del {A} (k : string) (d : list (string * A)) :
  keys (dict_del k d) = filter (fun j => negb (String.eqb j k)) (keys d).
Proof.
  unfold keys, dict_del. induction d as [|[i w] r IH]; simpl; [reflexivity|].
  destruct (String.eqb i k); simpl; now rewrite IH.
Qed.

(** *** The statements of the four methods and their visitors *)

Lemma template_stmt_refines : stmt_refines template_stmt template_filters.
Proof. intros d m H. unfold template_stmt. simpl. now rewrite H. Qed.

Lemma change_stmt_refines name vals :
  stmt_refines (change_stmt name vals) (changed_filters name vals).
Proof. intros d m H. unfold change_stmt. simpl. now rewrite H. Qed.

Lemma add_stmt_refines name vals :
  stmt_refines (add_stmt name vals) (dict_set name vals).
Proof. intros d m H. unfold add_stmt. simpl. now rewrite H. Qed.

Lemma remove_stmt_refines name : stmt_refines (remove_stmt name) (dict_del name).
Proof.
  intros d m H. unfold remove_stmt. simpl. rewrite H. simpl.
  unfold has_key. destruct (lookup name m) eqn:E; simpl.
  - reflexivity.
  - rewrite (del_absent _ _ E). now rewrite (set_same _ _ _ H).
Qed.

(** *** The loop and the walker *)

Lemma mapM_map {A B} (f : A -> result B) (g : A -> B) (l : list A) :
  (forall x, In x l -> f x = Ok (g x)) -> mapM f l = Ok (map g l).
Proof.
  induction l as [|x r IH]; simpl; intros H; [reflexivity|].
  rewrite (H x (or_introl eq_refl)). simpl.
  rewrite IH by (intros y Hy; apply H; now right). reflexivity.
Qed.

Section Walker.

Variable stmt : value -> result value.
Variable f : dict -> dict.
Hypothesis refines : stmt_refines stmt f.

Lemma stmt_card (c : value) : wf_card c = true -> stmt c = Ok (walk_card f c).
Proof.
  destruct c as [| | | | |d]; simpl; try discriminate.
  destruct (lookup "filters" d) as [[| | | | |m]|] eqn:E; try discriminate.
  intros _. now apply refines.
Qed.

Lemma for_widget_walk (w : value) :
  wf_widget w = true -> for_widget stmt w = Ok (walk_widget f w).
Proof.
  destruct w as [| | | | |d]; simpl; try discriminate.
  unfold for_widget, for_cards. simpl. unfold has_key.
  destruct (lookup "numberCards" d) as [[| | | | cs|]|] eqn:E; try discriminate; simpl.
  - intros Hcs. rewrite ?E. simpl.
    rewrite (mapM_map stmt (walk_card f)); [reflexivity|].
    intros c Hc. apply stmt_card.
    rewrite forallb_forall in Hcs. now apply Hcs.
  - destruct (lookup "filters" d) as [[| | | | |m]|] eqn:F; try discriminate; intros _.
    + now apply refines.
    + reflexivity.
Qed.

Lemma for_widgets_walk (D : value) :
  wf_report D = true -> for_widgets stmt D = Ok (walk f D).
Proof.
  destruct D as [| | | | |d]; simpl; try discriminate.
  unfold for_widgets. simpl.
  destruct (lookup "widgets" d) as [[| | | | ws|]|] eqn:E; try discriminate; simpl.
  intros Hws.
  rewrite (mapM_map (for_widget stmt) (walk_widget f)); [reflexivity|].
  intros w Hw. apply for_widget_walk.
  rewrite forallb_forall in Hws. now apply Hws.
Qed.

End Walker.

Section WalkFacts.

Variables f g : dict -> dict.

Lemma walk_card_card (c : value) :
  walk_card g (walk_card f c) = walk_card (fun m => g (f m)) c.
Proof.
  destruct c as [| | | | |d]; simpl; trivial.
  destruct (lookup "filters" d) as [[| | | | |m]|] eqn:E; simpl; rewrite ?E; trivial.
  now rewrite lookup_set_same, set_set.
Qed.

Lemma walk_widget_widget (w : value) :
  walk_widget g (walk_widget f w) = walk_widget (fun m => g (f m)) w.
Proof.
  destruct w as [| | | | |d]; simpl; trivial.
  destruct (lookup "numberCards" d) as [[| | | | cs|]|] eqn:E; simpl; rewrite ?E; trivial.
  - rewrite lookup_set_same, set_set, map_map.
    do 3 f_equal. apply map_ext. intros c. apply walk_card_card.
  - destruct (lookup "filters" d) as [[| | | | |m]|] eqn:F; simpl; rewrite ?E, ?F; trivial.
    rewrite lookup_set_other, E by discriminate.
    simpl. now rewrite lookup_set_same, set_set.
Qed.

Lemma walk_walk (D : value) : walk g (walk f D) = walk (fun m => g (f m)) D.
Proof.
  destruct D as [| | | | |d]; simpl; trivial.
  destruct (lookup "widgets" d) as [[| | | | ws|]|] eqn:E; simpl; rewrite ?E; trivial.
  rewrite lookup_set_same, set_set, map_map.
  do 3 f_equal. apply map_ext. intros w. apply walk_widget_widget.
Qed.

Lemma filter_maps_walk_card (c : value) :
  card_filter_maps (walk_card f c) = map f (card_filter_maps c).
Proof.
  destruct c as [| | | | |d]; simpl; trivial.
  destruct (lookup "filters" d) as [[| | | | |m]|] eqn:E; simpl; rewrite ?E; trivial.
  now rewrite lookup_set_same.
Qed.

Lemma flat_map_walk {A} (h : A -> A) (fm : A -> list dict) (l : list A) :
  (forall x, fm (h x) = map f (fm x)) ->
  flat_map fm (map h l) = map f (flat_map fm l).
Proof.
  intros H. induction l as [|x r IH]; simpl; [reflexivity|].
  now rewrite map_app, H, IH.
Qed.

Lemma filter_maps_walk_widget (w : value) :
  widget_filter_maps (walk_widget f w) = map f (widget_filter_maps w).
Proof.
  destruct w as [| | | | |d]; simpl; trivial.
  destruct (lookup "numberCards" d) as [[| | | | cs|]|] eqn:E; simpl; rewrite ?E; trivial.
  - rewrite lookup_set_same. apply flat_map_walk, filter_maps_walk_card.
  - destruct (lookup "filters" d) as [[| | | | |m]|] eqn:F; simpl; rewrite ?E, ?F; trivial.
    rewrite lookup_set_other, E by discriminate.
    now rewrite lookup_set_same.
Qed.

Lemma filter_maps_walk (D : value) :
  filter_maps (walk f D) = map f (filter_maps D).
Proof.
  destruct D as [| | | | |d]; simpl; trivial.
  destruct (lookup "widgets" d) as [[| | | | ws|]|] eqn:E; simpl; rewrite ?E; trivial.
  rewrite lookup_set_same. apply flat_map_walk, filter_maps_walk_widget.
Qed.

Lemma wf_walk_card (c : value) : wf_card (walk_card f c) = wf_card c.
Proof.
  destruct c as [| | | | |d]; simpl; trivial.
  destruct (lookup "filters" d) as [[| | | | |m]|] eqn:E; simpl; rewrite ?E; trivial.
  now rewrite lookup_set_same.
Qed.

Lemma forallb_map_same {A} (p : A -> bool) (h : A -> A) (l : list A) :
  (forall x, p (h x) = p x) -> forallb p (map h l) = forallb p l.
Proof.
  intros H. induction l as [|x r IH]; simpl; [reflexivity|].
  now rewrite H, IH.
Qed.

Lemma wf_walk_widget (w : value) : wf_widget (walk_widget f w) = wf_widget w.
Proof.
  destruct w as [| | | | |d]; simpl; trivial.
  destruct (lookup "numberCards" d) as [[| | | | cs|]|] eqn:E; simpl; rewrite ?E; trivial.
  - rewrite lookup_set_same. apply forallb_map_same, wf_walk_card.
  - destruct (lookup "filters" d) as [[| | | | |m]|] eqn:F; simpl; rewrite ?E, ?F; trivial.
    rewrite lookup_set_other, E by discriminate.
    now rewrite lookup_set_same.
Qed.

Lemma wf_walk (D : value) : wf_report (walk f D) = wf_report D.
Proof.
  destruct D as [| | | | |d]; simpl; trivial.
  destruct (lookup "widgets" d) as [[| | | | ws|]|] eqn:E; simpl; rewrite ?E; trivial.
  rewrite lookup_set_same. apply forallb_map_same, wf_walk_widget.
Qed.

End WalkFacts.

Lemma map_fixed {A} (h : A -> A) (l : list A) :
  (forall x, In x l -> h x = x) -> map h l = l.
Proof.
  induction l as [|x r IH]; simpl; intros H; [reflexivity|].
  rewrite H by now left. rewrite IH; [reflexivity|]. intros y Hy. apply H. now right.
Qed.

(** A visitor that fixes every filter map of a report fixes the report. *)
Lemma walk_card_fixed f (c : value) :
  (forall m, In m (card_filter_maps c) -> f m = m) -> walk_card f c = c.
Proof.
  destruct c as [| | | | |d]; simpl; trivial.
  destruct (lookup "filters" d) as [[| | | | |m]|] eqn:E; simpl; trivial.
  intros H. rewrite H by now left. now rewrite (set_same _ _ _ E).
Qed.

Lemma walk_widget_fixed f (w : value) :
  (forall m, In m (widget_filter_maps w) -> f m = m) -> walk_widget f w = w.
Proof.
  destruct w as [| | | | |d]; simpl; trivial.
  destruct (lookup "numberCards" d) as [[| | | | cs|]|] eqn:E; simpl; trivial.
  - intros H. rewrite map_fixed.
    + now rewrite (set_same _ _ _ E).
    + intros c Hc. apply walk_card_fixed. intros m Hm. apply H.
      apply in_flat_map. eauto.
  - intros H. apply (walk_card_fixed f (VDict d)). exact H.
Qed.

Lemma walk_fixed f (D : value) :
  (forall m, In m (filter_maps D) -> f m = m) -> walk f D = D.
Proof.
  destruct D as [| | | | |d]; simpl; trivial.
  destruct (lookup "widgets" d) as [[| | | | ws|]|] eqn:E; simpl; trivial.
  intros H. rewrite map_fixed.
  - now rewrite (set_same _ _ _ E).
  - intros w Hw. apply walk_widget_fixed. intros m Hm. apply H.
    apply in_flat_map. eauto.
Qed.

Lemma walk_ext f g (D : value) : (forall m, f m = g m) -> walk f D = walk g D.
Proof.
  intros H.
  assert (Hc : forall c, walk_card f c = walk_card g c).
  { intros [| | | | |d]; simpl; trivial.
    destruct (lookup "filters" d) as [[| | | | |m]|]; trivial. now rewrite H. }
  assert (Hw : forall w, walk_widget f w = walk_widget g w).
  { intros [| | | | |d]; simpl; trivial.
    destruct (lookup "numberCards" d) as [[| | | | cs|]|]; trivial.
    - do 3 f_equal. apply map_ext, Hc.
    - apply (Hc (VDict d)). }
  destruct D as [| | | | |d]; simpl; trivial.
  destruct (lookup "widgets" d) as [[| | | | ws|]|]; trivial.
  do 3 f_equal. apply map_ext, Hw.
Qed.

Lemma skeleton_walk f (D : value) : skeleton (walk f D) = skeleton D.
Proof. unfold skeleton. now rewrite walk_walk. Qed.

(** *** Equality of values *)

Lemma mem_in (k : string) (l : list string) : mem k l = true <-> In k l.
Proof.
  induction l as [|j r IH]; simpl; [split; [discriminate|tauto]|].
  rewrite orb_true_iff, IH.
  destruct (String.eqb_spec j k); intuition congruence.
Qed.

Lemma lookup_entry (k : string) (v : value) (d : dict) :
  nodupb (map fst d) = true -> In (k, v) d -> lookup k d = Some v.
Proof.
  induction d as [|[j w] r IH]; simpl; [tauto|].
  rewrite andb_true_iff, negb_true_iff. intros [Hj Hr] [E|Hin].
  - injection E as -> ->. now rewrite String.eqb_refl.
  - destruct (String.eqb_spec j k) as [->|N]; [|now apply IH].
    exfalso. apply (in_map fst) in Hin. apply mem_in in Hin.
    simpl in Hin. congruence.
Qed.

(** On dictionaries without repeated keys [==] is reflexive. *)
Lemma py_eq_refl (v : value) : valid v = true -> py_eq v v = true.
Proof.
  induction v using value_ind; simpl; trivial.
  - intros _. now destruct b.
  - intros _. apply Z.eqb_refl.
  - intros _. apply String.eqb_refl.
  - induction H as [|x r Hx _ IH]; simpl; [reflexivity|].
    rewrite !andb_true_iff. intros [Vx Vr]. auto.
  - rewrite !andb_true_iff. intros [Hnd Hv].
    split; [apply Nat.eqb_refl|].
    apply forallb_forall. intros [k x] Hin. simpl.
    rewrite (lookup_entry k x d Hnd Hin).
    rewrite Forall_forall in H. apply (H (k, x) Hin).
    rewrite forallb_forall in Hv. apply (Hv (k, x) Hin).
Qed.

(** *** What each method computes on a well-formed report *)

Lemma get_template_report_walk (D : value) :
  wf_report D = true -> get_template_report D = Ok (walk template_filters D).
Proof.
  intros H. unfold get_template_report. rewrite deepcopy_same.
  now apply for_widgets_walk; [apply template_stmt_refines|].
Qed.

Lemma change_filter_value_walk (D : value) code name vals :
  wf_report D = true -> lookup code filter_code_to_name_map = Some name ->
  change_filter_value D code vals = ([], Ok (walk (changed_filters name vals) D)).
Proof.
  intros H E. unfold change_filter_value. rewrite E, deepcopy_same.
  f_equal. now apply for_widgets_walk; [apply change_stmt_refines|].
Qed.

Lemma add_filter_value_walk (D : value) code name vals :
  wf_report D = true -> lookup code filter_code_to_name_map = Some name ->
  add_filter_value D code vals = ([], Ok (walk (dict_set name vals) D)).
Proof.
  intros H E. unfold add_filter_value. rewrite E, deepcopy_same.
  f_equal. now apply for_widgets_walk; [apply add_stmt_refines|].
Qed.

Lemma remove_filter_walk (D : value) code name :
  wf_report D = true -> lookup code filter_code_to_name_map = Some name ->
  remove_filter D code = ([], Ok (walk (dict_del name) D)).
Proof.
  intros H E. unfold remove_filter. rewrite E, deepcopy_same.
  f_equal. now apply for_widgets_walk; [apply remove_stmt_refines|].
Qed.

Lemma change_filter_value_unsupported (D : value) code vals :
  lookup code filter_code_to_name_map = None ->
  change_filter_value D code vals = ([not_supported code], Ok D).
Proof. intros E. unfold change_filter_value. now rewrite E. Qed.

Lemma add_filter_value_unsupported (D : value) code vals :
  lookup code filter_code_to_name_map = None ->
  add_filter_value D code vals = ([not_supported code], Ok D).
Proof. intros E. unfold add_filter_value. now rewrite E. Qed.

Lemma remove_filter_unsupported (D : value) code :
  lookup code filter_code_to_name_map = None ->
  remove_filter D code = ([not_supported code], Ok D).
Proof. intros E. unfold remove_filter. now rewrite E. Qed.

(** *** The visitors on one filter map *)

Lemma keys_map_values (h : string -> value -> value) (m : dict) :
  keys (map (fun kv => (fst kv, h (fst kv) (snd kv))) m) = keys m.
Proof. unfold keys. rewrite map_map. now apply map_ext. Qed.

Lemma lookup_map_values (h : string -> value -> value) (k : string) (m : dict) :
  lookup k (map (fun kv => (fst kv, h (fst kv) (snd kv))) m)
  = option_map (h k) (lookup k m).
Proof.
  induction m as [|[j w] r IH]; simpl; [reflexivity|].
  destruct (String.eqb_spec j k) as [->|N]; [reflexivity|apply IH].
Qed.

Lemma keys_template (m : dict) : keys (template_filters m) = keys m.
Proof.
  apply (keys_map_values (fun k v => if mem k PERSISTENT_FILTERS then v else VList [])).
Qed.

Lemma lookup_template (k : string) (m : dict) :
  lookup k (template_filters m)
  = option_map (fun v => if mem k PERSISTENT_FILTERS then v else VList []) (lookup k m).
Proof.
  apply (lookup_map_values
           (fun k v => if mem k PERSISTENT_FILTERS then v else VList [])).
Qed.

Lemma keys_changed name vals (m : dict) : keys (changed_filters name vals m) = keys m.
Proof.
  apply (keys_map_values (fun k v => if String.eqb k name then vals else v)).
Qed.

Lemma lookup_changed name vals (k : string) (m : dict) :
  lookup k (changed_filters name vals m)
  = option_map (fun v => if String.eqb k name then vals else v) (lookup k m).
Proof.
  apply (lookup_map_values (fun k v => if String.eqb k name then vals else v)).
Qed.

Lemma changed_absent name vals (m : dict) :
  lookup name m = None -> changed_filters name vals m = m.
Proof.
  unfold changed_filters. induction m as [|[j w] r IH]; simpl; [reflexivity|].
  destruct (String.eqb j name) eqn:E; [discriminate|].
  intros H. now rewrite IH.
Qed.

Lemma template_template (m : dict) :
  template_filters (template_filters m) = template_filters m.
Proof.
  unfold template_filters. rewrite map_map. apply map_ext.
  intros [k v]. cbn [fst snd]. now destruct (mem k PERSISTENT_FILTERS).
Qed.

Lemma registry_names code name :
  lookup code filter_code_to_name_map = Some name ->
  name <> "Connection" /\ name <> "Platform".
Proof.
  unfold filter_code_to_name_map. cbn [lookup].
  repeat match goal with
         | |- context [String.eqb ?a code] => destruct (String.eqb a code)
         end;
  intros E; try discriminate E; injection E as <-; split; discriminate.
Qed.

(** *** Layout *)

Lemma Forall2_map_graph {A} (R : A -> A -> Prop) (h : A -> A) (l : list A) :
  (forall x, R x (h x)) -> Forall2 R l (map h l).
Proof. intros H. induction l; simpl; constructor; auto. Qed.

Lemma Forall2_same {A} (R : A -> A -> Prop) (l : list A) :
  (forall x, R x x) -> Forall2 R l l.
Proof. intros H. induction l; constructor; auto. Qed.

Lemma widgets_of_walk f (D : value) :
  widgets_of (walk f D) = map (walk_widget f) (widgets_of D).
Proof.
  destruct D as [| | | | |d]; simpl; trivial.
  destruct (lookup "widgets" d) as [[| | | | ws|]|] eqn:E; simpl; rewrite ?E; trivial.
  now rewrite lookup_set_same.
Qed.

Lemma cards_of_walk f (w : value) :
  cards_of (walk_widget f w) = map (walk_card f) (cards_of w).
Proof.
  destruct w as [| | | | |d]; simpl; trivial.
  destruct (lookup "numberCards" d) as [[| | | | cs|]|] eqn:E; simpl; rewrite ?E; trivial.
  - now rewrite lookup_set_same.
  - destruct (lookup "filters" d) as [[| | | | |m]|] eqn:F; simpl; rewrite ?E; trivial.
    rewrite lookup_set_other, E by discriminate. reflexivity.
Qed.

Lemma same_layout_walk f (D : value) : same_layout D (walk f D).
Proof.
  split; [apply skeleton_walk|].
  rewrite widgets_of_walk. apply Forall2_map_graph. intros w. split.
  - apply walk_widget_widget.
  - rewrite cards_of_walk. apply Forall2_map_graph. intros c.
    apply walk_card_card.
Qed.

Lemma same_layout_refl (D : value) : same_layout D D.
Proof.
  split; [reflexivity|]. apply Forall2_same. intros w. split; [reflexivity|].
  now apply Forall2_same.
Qed.

Lemma transforms_walk f (R : dict -> dict -> Prop) (D : value) :
  (forall m, R m (f m)) -> transforms_to (Ok (walk f D)) R D.
Proof.
  intros H. exists (walk f D). split; [reflexivity|]. split.
  - apply same_layout_walk.
  - rewrite filter_maps_walk. now apply Forall2_map_graph.
Qed.

Lemma transforms_same (R : dict -> dict -> Prop) (D : value) :
  (forall m, R m m) -> transforms_to (Ok D) R D.
Proof.
  intros H. exists D. split; [reflexivity|]. split.
  - apply same_layout_refl.
  - now apply Forall2_same.
Qed.

(** *** The four methods *)


Lemma template_templatized (m : dict) : templatized m (template_filters m).
Proof.
  split; [apply keys_template|].
  intros k v H. rewrite lookup_template, H.
  unfold PERSISTENT_FILTERS. cbn [option_map mem].
  now rewrite orb_false_r, (String.eqb_sym "Connection"), (String.eqb_sym "Platform").
Qed.

Lemma changed_replaced name vals (m : dict) :
  replaced name vals m (changed_filters name vals m).
Proof.
  split; [apply keys_changed|]. split; [|split].
  - intros k N. rewrite lookup_changed.
    destruct (String.eqb_spec k name); [congruence|].
    now destruct (lookup k m).
  - rewrite lookup_changed, String.eqb_refl. unfold has_key.
    now destruct (lookup name m).
  - unfold has_key. destruct (lookup name m) eqn:E; [discriminate|].
    intros _. now apply changed_absent.
Qed.

Lemma keys_set {A} (k : string) (v : A) d :
  keys (dict_set k v d) = if has_key k d then keys d else keys d ++ [k].
Proof.
  unfold has_key. destruct (lookup k d) eqn:E.
  - now apply keys_set_present with a.
  - now apply keys_set_absent.
Qed.

Lemma set_added name vals (m : dict) : added name vals m (dict_set name vals m).
Proof.
  split; [apply lookup_set_same|]. split; [|apply keys_set].
  intros k N. now apply lookup_set_other.
Qed.

(** C1: on a report whose widgets carry cards with filter maps, a filter map
    or neither, [get_template_report] returns a report laid out as its
    argument in which every filter map has the keys it had, in their order,
    every key but ['Connection'] and ['Platform'] mapped to the empty list,
    and these two mapped to the values they had. *)
Theorem template_clears_filters (D : value) :
  wf_report D = true ->
  transforms_to (get_template_report D) templatized D.
Proof.
  intros H. rewrite (get_template_report_walk D H).
  apply transforms_walk, template_templatized.
Qed.

Lemma template_clears_filters_witness :
  transforms_to (get_template_report scenario_a) templatized scenario_a.
Proof. apply (template_clears_filters scenario_a). reflexivity. Defined.

(** C2: on a well-formed report, each of the four methods returns a report
    laid out as its argument
    (same entries, same widgets in the same order, same cards in the same
    order, everything but the filter maps equal); the keys of every filter
    map are the same for [get_template_report] and [change_filter_value],
    the same with the target added when it was missing for
    [add_filter_value], and the same without the target for
    [remove_filter]. *)
Theorem transforms_keep_layout (D : value) (code : string) (vals : value) :
  wf_report D = true ->
  transforms_to (get_template_report D) same_keys D /\
  transforms_to (snd (change_filter_value D code vals)) same_keys D /\
  transforms_to (snd (add_filter_value D code vals))
                (keys_with (lookup code filter_code_to_name_map)) D /\
  transforms_to (snd (remove_filter D code))
                (keys_without (lookup code filter_code_to_name_map)) D.
Proof.
  intros H. split.
  { rewrite (get_template_report_walk D H).
    apply transforms_walk. intros m. apply keys_template. }
  destruct (lookup code filter_code_to_name_map) as [name|] eqn:E.
  - rewrite (change_filter_value_walk D code name vals H E),
            (add_filter_value_walk D code name vals H E),
            (remove_filter_walk D code name H E).
    cbn [snd]. repeat split.
    + apply transforms_walk. intros m. apply keys_changed.
    + apply transforms_walk. intros m. apply keys_set.
    + apply transforms_walk. intros m. apply keys_del.
  - rewrite (change_filter_value_unsupported D code vals E),
            (add_filter_value_unsupported D code vals E),
            (remove_filter_unsupported D code E).
    cbn [snd]. repeat split; now apply transforms_same.
Qed.

Lemma transforms_keep_layout_witness :
  transforms_to (get_template_report scenario_b) same_keys scenario_b /\
  transforms_to (snd (change_filter_value scenario_b "ea" (VList []))) same_keys
                scenario_b /\
  transforms_to (snd (add_filter_value scenario_b "ea" (VList [])))
                (keys_with (lookup "ea" filter_code_to_name_map)) scenario_b /\
  transforms_to (snd (remove_filter scenario_b "ea"))
                (keys_without (lookup "ea" filter_code_to_name_map)) scenario_b.
Proof. apply (transforms_keep_layout scenario_b "ea" (VList [])). reflexivity. Defined.

(** C4: on a well-formed report and for a code of the registry, naming the
    field [name],
    [change_filter_value] gives [name] the new values in the filter maps
    that have this key and leaves the others as they are, without the key;
    [add_filter_value] makes [name] map to the new values in every filter
    map, as a new last key where it was missing; and no filter map gets a new
    key from [get_template_report], [change_filter_value] or
    [remove_filter]. *)
Theorem change_keeps_add_inserts (D : value) (code name : string) (vals : value) :
  wf_report D = true ->
  lookup code filter_code_to_name_map = Some name ->
  transforms_to (snd (change_filter_value D code vals)) (replaced name vals) D /\
  transforms_to (snd (add_filter_value D code vals)) (added name vals) D /\
  transforms_to (get_template_report D) no_new_key D /\
  transforms_to (snd (change_filter_value D code vals)) no_new_key D /\
  transforms_to (snd (remove_filter D code)) no_new_key D.
Proof.
  intros H E.
  rewrite (get_template_report_walk D H),
          (change_filter_value_walk D code name vals H E),
          (add_filter_value_walk D code name vals H E),
          (remove_filter_walk D code name H E).
  cbn [snd]. repeat split; apply transforms_walk; intros m.
  - apply changed_replaced.
  - apply set_added.
  - unfold no_new_key. rewrite keys_template. apply incl_refl.
  - unfold no_new_key. rewrite keys_changed. apply incl_refl.
  - unfold no_new_key. rewrite keys_del. intros k Hk.
    now apply filter_In in Hk.
Qed.

Lemma change_keeps_add_inserts_witness :
  transforms_to (snd (change_filter_value scenario_b "ea" (VList [VStr "a1"])))
                (replaced "Endpoint Agents" (VList [VStr "a1"])) scenario_b /\
  transforms_to (snd (add_filter_value scenario_b "ea" (VList [VStr "a1"])))
                (added "Endpoint Agents" (VList [VStr "a1"])) scenario_b /\
  transforms_to (get_template_report scenario_b) no_new_key scenario_b /\
  transforms_to (snd (change_filter_value scenario_b "ea" (VList [VStr "a1"])))
                no_new_key scenario_b /\
  transforms_to (snd (remove_filter scenario_b "ea")) no_new_key scenario_b.
Proof.
  apply (change_keeps_add_inserts scenario_b "ea" "Endpoint Agents"
           (VList [VStr "a1"]));
    reflexivity.
Defined.

(** C8: on a well-formed report, [get_template_report] applied to its own
    result returns that result, and so does [remove_filter] with the same
    code. *)
Theorem template_and_remove_idempotent (D : value) (code : string) :
  wf_report D = true ->
  (exists D1, get_template_report D = Ok D1 /\ get_template_report D1 = Ok D1) /\
  (exists D1, snd (remove_filter D code) = Ok D1 /\
              snd (remove_filter D1 code) = Ok D1).
Proof.
  intros H. split.
  - exists (walk template_filters D). split; [now apply get_template_report_walk|].
    rewrite get_template_report_walk by now rewrite wf_walk.
    rewrite walk_walk. f_equal. apply walk_ext, template_template.
  - destruct (lookup code filter_code_to_name_map) as [name|] eqn:E.
    + exists (walk (dict_del name) D).
      rewrite (remove_filter_walk D code name H E).
      split; [reflexivity|].
      rewrite (remove_filter_walk _ code name) by (trivial; now rewrite wf_walk).
      cbn [snd]. rewrite walk_walk. f_equal. apply walk_ext. intros m. apply del_del.
    + exists D. now rewrite (remove_filter_unsupported D code E).
Qed.

Lemma template_and_remove_idempotent_witness :
  (exists D1, get_template_report scenario_a = Ok D1 /\
              get_template_report D1 = Ok D1) /\
  (exists D1, snd (remove_filter scenario_a "loc") = Ok D1 /\
              snd (remove_filter D1 "loc") = Ok D1).
Proof. apply (template_and_remove_idempotent scenario_a "loc"). reflexivity. Defined.

(** C9: on a report with a list of widgets, each a dictionary carrying a
    list of cards with filter maps, or a filter map, or neither, each of the
    four methods returns a report: no exception is raised. *)
Theorem transforms_total (D : value) (code : string) (vals : value) :
  wf_report D = true ->
  (exists D', get_template_report D = Ok D') /\
  (exists D', snd (change_filter_value D code vals) = Ok D') /\
  (exists D', snd (add_filter_value D code vals) = Ok D') /\
  (exists D', snd (remove_filter D code) = Ok D').
Proof.
  intros H. split; [|split; [|split]].
  - eexists. now apply get_template_report_walk.
  - destruct (lookup code filter_code_to_name_map) as [name|] eqn:E.
    + rewrite (change_filter_value_walk D code name vals H E). now eexists.
    + rewrite (change_filter_value_unsupported D code vals E). now eexists.
  - destruct (lookup code filter_code_to_name_map) as [name|] eqn:E.
    + rewrite (add_filter_value_walk D code name vals H E). now eexists.
    + rewrite (add_filter_value_unsupported D code vals E). now eexists.
  - destruct (lookup code filter_code_to_name_map) as [name|] eqn:E.
    + rewrite (remove_filter_walk D code name H E). now eexists.
    + rewrite (remove_filter_unsupported D code E). now eexists.
Qed.

Lemma transforms_total_witness :
  (exists D', get_template_report scenario_b = Ok D') /\
  (exists D', snd (change_filter_value scenario_b "pn" (VList [VStr "n"])) = Ok D') /\
  (exists D', snd (add_filter_value scenario_b "pn" (VList [VStr "n"])) = Ok D') /\
  (exists D', snd (remove_filter scenario_b "pn") = Ok D').
Proof. apply (transforms_total scenario_b "pn" (VList [VStr "n"])). reflexivity. Defined.

(** C10: no code of the registry names ['Connection'] or ['Platform'], and
    on a well-formed report each of the four methods returns a report in
    which every filter map maps
    these two keys as before (to the same value, or to none). *)
Theorem persistent_filters_kept (D : value) (code : string) (vals : value) :
  wf_report D = true ->
  targets_no_persistent code /\
  transforms_to (get_template_report D) persistent_kept D /\
  transforms_to (snd (change_filter_value D code vals)) persistent_kept D /\
  transforms_to (snd (add_filter_value D code vals)) persistent_kept D /\
  transforms_to (snd (remove_filter D code)) persistent_kept D.
Proof.
  intros H. unfold targets_no_persistent. split; [|split].
  { destruct (lookup code filter_code_to_name_map) as [name|] eqn:E; [|exact I].
    destruct (registry_names code name E) as [N1 N2].
    unfold PERSISTENT_FILTERS. cbn [mem].
    destruct (String.eqb_spec "Connection" name); [congruence|].
    destruct (String.eqb_spec "Platform" name); [congruence|]. reflexivity. }
  { rewrite (get_template_report_walk D H). apply transforms_walk. intros m.
    split; rewrite lookup_template; now destruct (lookup _ m). }
  destruct (lookup code filter_code_to_name_map) as [name|] eqn:E.
  - destruct (registry_names code name E) as [N1 N2].
    rewrite (change_filter_value_walk D code name vals H E),
            (add_filter_value_walk D code name vals H E),
            (remove_filter_walk D code name H E).
    cbn [snd]. repeat split; apply transforms_walk; intros m; split.
    + apply changed_replaced. congruence.
    + apply changed_replaced. congruence.
    + apply lookup_set_other. congruence.
    + apply lookup_set_other. congruence.
    + apply lookup_del_other. congruence.
    + apply lookup_del_other. congruence.
  - rewrite (change_filter_value_unsupported D code vals E),
            (add_filter_value_unsupported D code vals E),
            (remove_filter_unsupported D code E).
    cbn [snd]. repeat split; apply transforms_same; intros m; now split.
Qed.

Lemma persistent_filters_kept_witness :
  targets_no_persistent "net" /\
  transforms_to (get_template_report scenario_a) persistent_kept scenario_a /\
  transforms_to (snd (change_filter_value scenario_a "net" (VList []))) persistent_kept
                scenario_a /\
  transforms_to (snd (add_filter_value scenario_a "net" (VList []))) persistent_kept
                scenario_a /\
  transforms_to (snd (remove_filter scenario_a "net")) persistent_kept scenario_a.
Proof. apply (persistent_filters_kept scenario_a "net" (VList [])). reflexivity. Defined.

(** *** Reading the values file *)

Lemma append_assoc (a b c : string) : ((a ++ b) ++ c = a ++ (b ++ c))%string.
Proof. induction a as [|x a IH]; simpl; [reflexivity|]. now rewrite IH. Qed.

Lemma append_empty (a : string) : (a ++ "")%string = a.
Proof. induction a as [|x a IH]; simpl; [reflexivity|]. now rewrite IH. Qed.

Lemma not_break_not_cr (c : ascii) :
  Str.is_linebreak c = false -> Ascii.eqb c Str.CR = false.
Proof.
  intros H. destruct (Ascii.eqb_spec c Str.CR) as [->|]; [|reflexivity].
  discriminate H.
Qed.

Lemma splitlines_from_rest (cur l : string) :
  one_line l = true ->
  Str.splitlines_from cur l = Str.flush (cur ++ l).
Proof.
  revert cur. induction l as [|c l IH]; intros cur; simpl.
  - intros _. now rewrite append_empty.
  - rewrite andb_true_iff, negb_true_iff. intros [Hc Hl].
    rewrite Hc, IH by assumption. now rewrite append_assoc.
Qed.

Lemma universal_newlines_one_line (l : string) :
  one_line l = true -> Str.universal_newlines l = l.
Proof.
  induction l as [|c l IH]; simpl; [reflexivity|].
  rewrite andb_true_iff, negb_true_iff. intros [Hc Hl].
  now rewrite (not_break_not_cr c Hc), IH.
Qed.

(** The character that [f.read()] gives for a line ending. *)
Lemma universal_newlines_eol (l : string) (e : eol) (rest : string) :
  one_line l = true ->
  negb (is_cr e && starts_lf rest) = true ->
  exists c, Str.is_linebreak c = true /\ Ascii.eqb c Str.CR = false /\
    Str.universal_newlines (l ++ eol_text e ++ rest)
    = (l ++ String c (Str.universal_newlines rest))%string.
Proof.
  intros Hl He.
  assert (Hbase : exists c, Str.is_linebreak c = true /\ Ascii.eqb c Str.CR = false /\
            Str.universal_newlines (eol_text e ++ rest)
            = String c (Str.universal_newlines rest)).
  { destruct e; cbn [is_cr andb negb] in He;
      try (eexists; split; [|split]; [| |reflexivity]; reflexivity).
    exists Str.LF. split; [reflexivity|]. split; [reflexivity|].
    destruct rest as [|c' r']; [reflexivity|].
    cbn [starts_lf] in He. apply negb_true_iff in He.
    cbn [eol_text append Str.universal_newlines].
    now rewrite He. }
  destruct Hbase as (c & H1 & H2 & H3). exists c. split; [exact H1|].
  split; [exact H2|].
  induction l as [|x l IH]; [exact H3|].
  cbn [one_line] in Hl. apply andb_true_iff in Hl as [Hx Hl].
  apply negb_true_iff in Hx.
  cbn [append Str.universal_newlines].
  now rewrite (not_break_not_cr x Hx), (IH Hl).
Qed.

Lemma splitlines_from_break (cur l rest : string) (c : ascii) :
  one_line l = true ->
  Str.is_linebreak c = true -> Ascii.eqb c Str.CR = false ->
  Str.splitlines_from cur (l ++ String c rest)
  = (cur ++ l)%string :: Str.splitlines_from "" rest.
Proof.
  intros Hl Hc Hcr. revert cur.
  induction l as [|x l IH]; intros cur.
  - cbn [append Str.splitlines_from]. rewrite Hc, Hcr, append_empty.
    now destruct rest.
  - cbn [one_line] in Hl. apply andb_true_iff in Hl as [Hx Hl].
    apply negb_true_iff in Hx.
    cbn [append Str.splitlines_from]. rewrite Hx, (IH Hl).
    now rewrite append_assoc.
Qed.

(** What the commands read of a text cut into its lines. *)
Lemma values_of_lines (ls : list (string * eol)) (last : string) :
  well_split ls last = true ->
  read_values (Str.universal_newlines (join_lines ls last))
  = map Str.strip (lines_of (map fst ls) last).
Proof.
  unfold read_values, lines_of, Str.splitlines. intros H. f_equal.
  induction ls as [|[l e] r IH]; cbn [well_split join_lines map fst app] in *.
  - rewrite (universal_newlines_one_line last H).
    now rewrite splitlines_from_rest.
  - apply andb_true_iff in H as [H Hr]. apply andb_true_iff in H as [Hl He].
    destruct (universal_newlines_eol l e (join_lines r last) Hl He)
      as (c & Hc & Hcr & ->).
    rewrite (splitlines_from_break "" l _ c Hl Hc Hcr).
    cbn [append]. now rewrite (IH Hr).
Qed.

Lemma linebreak_cases (c : ascii) :
  Str.is_linebreak c = true ->
  exists e, is_cr e = false /\ (e = E_CRLF -> False) /\
            (String c EmptyString = eol_text e \/ c = Str.CR).
Proof.
  destruct c as [[] [] [] [] [] [] [] []]; intros H; try discriminate H;
    first [ exists E_LF; split; [reflexivity|]; split; [discriminate|];
            left; reflexivity
          | exists E_VT; split; [reflexivity|]; split; [discriminate|];
            left; reflexivity
          | exists E_FF; split; [reflexivity|]; split; [discriminate|];
            left; reflexivity
          | exists E_FS; split; [reflexivity|]; split; [discriminate|];
            left; reflexivity
          | exists E_GS; split; [reflexivity|]; split; [discriminate|];
            left; reflexivity
          | exists E_RS; split; [reflexivity|]; split; [discriminate|];
            left; reflexivity
          | exists E_NEL; split; [reflexivity|]; split; [discriminate|];
            left; reflexivity
          | exists E_LF; split; [reflexivity|]; split; [discriminate|];
            right; reflexivity ].
Qed.

Lemma starts_lf_split (ls : list (string * eol)) (last : string) :
  well_split ls last = true -> starts_lf (join_lines ls last) = true ->
  exists r, ls = (EmptyString, E_LF) :: r.
Proof.
  destruct ls as [|[l e] r]; cbn [well_split join_lines].
  - destruct last as [|c s]; [discriminate|].
    cbn [one_line starts_lf]. rewrite andb_true_iff, negb_true_iff.
    intros [Hc _] E. apply Ascii.eqb_eq in E. subst c. discriminate Hc.
  - rewrite !andb_true_iff. intros [[Hl _] _].
    destruct l as [|c s].
    + destruct e; cbn; try discriminate. intros _. now exists r.
    + cbn [one_line] in Hl. apply andb_true_iff in Hl as [Hc _].
      apply negb_true_iff in Hc. cbn [append starts_lf].
      intros E. apply Ascii.eqb_eq in E. subst c. discriminate Hc.
Qed.

(** Every text is cut into lines in this way. *)
Lemma every_text_has_lines (text : string) :
  exists ls last, well_split ls last = true /\ join_lines ls last = text.
Proof.
  induction text as [|c t (ls & last & Hw & Ht)].
  - now exists [], EmptyString.
  - destruct (Str.is_linebreak c) eqn:Hc.
    + destruct (linebreak_cases c Hc) as (e & Hcr & Hne & [He| ->]).
      * exists ((EmptyString, e) :: ls), last. split.
        -- cbn [well_split one_line]. now rewrite Hcr, Hw.
        -- cbn [join_lines append]. rewrite <- He, Ht. reflexivity.
      * destruct (starts_lf (join_lines ls last)) eqn:Hs.
        -- destruct (starts_lf_split ls last Hw Hs) as [r ->].
           exists ((EmptyString, E_CRLF) :: r), last. split.
           ++ cbn [well_split one_line is_cr andb negb] in *. exact Hw.
           ++ rewrite <- Ht. reflexivity.
        -- exists ((EmptyString, E_CR) :: ls), last. split.
           ++ cbn [well_split one_line is_cr andb]. now rewrite Hs, Hw.
           ++ rewrite <- Ht. reflexivity.
    + destruct ls as [|[l e] r].
      * exists [], (String c last). split.
        -- cbn [well_split one_line] in *. now rewrite Hc, Hw.
        -- cbn [join_lines] in *. now rewrite Ht.
      * exists ((String c l, e) :: r), last. split.
        -- cbn [well_split one_line] in *. now rewrite Hc.
        -- cbn [join_lines append] in *. now rewrite Ht.
Qed.

(** C6, as the code has it: every text is cut into lines by the line
    endings (line feed, carriage return, the two together, and the other
    boundaries of [splitlines]), and the values read from a file are its
    lines, one value per line in order, each with the white space at its two
    ends removed; an empty line gives the empty string, and the text after
    the last ending is a line when it is not empty. *)
Theorem values_are_stripped_lines :
  (forall text, exists ls last,
      well_split ls last = true /\ join_lines ls last = text) /\
  (forall ls last,
      well_split ls last = true ->
      read_values (Str.universal_newlines (join_lines ls last))
      = map Str.strip (lines_of (map fst ls) last)).
Proof. split; [exact every_text_has_lines|exact values_of_lines]. Qed.

Lemma values_are_stripped_lines_witness :
  read_values (Str.universal_newlines
                 (join_lines [("a1", E_CRLF); ("", E_CR); (" a 2 ", E_LF);
                              ("x", E_NEL); (" ", E_VT)] " b"))
  = map Str.strip (lines_of (map fst [("a1", E_CRLF); ("", E_CR); (" a 2 ", E_LF);
                                      ("x", E_NEL); (" ", E_VT)]) " b").
Proof.
  apply (proj2 values_are_stripped_lines
           [("a1", E_CRLF); ("", E_CR); (" a 2 ", E_LF); ("x", E_NEL); (" ", E_VT)]
           " b").
  reflexivity.
Defined.

(** C6, as stated, fails: the single line [" a "] is read as the value
    ["a"]. *)
Lemma values_not_verbatim :
  Str.splitlines (Str.universal_newlines (unlines [" a "] "")) = [" a "] /\
  read_values (Str.universal_newlines (unlines [" a "] "")) <> [" a "].
Proof. split; [reflexivity|]. vm_compute. discriminate. Qed.

(** *** Runs of the commands *)

Lemma posts_app (a b : list event) : posts (a ++ b) = posts a ++ posts b.
Proof.
  induction a as [|e a IH]; simpl; [reflexivity|].
  destruct e; simpl; now rewrite IH.
Qed.

Lemma printed_app (a b : list event) : printed (a ++ b) = printed a ++ printed b.
Proof.
  induction a as [|e a IH]; simpl; [reflexivity|].
  destruct e; simpl; now rewrite IH.
Qed.

Lemma posts_prints (out : list string) : posts (map EPrint out) = [].
Proof. induction out; simpl; auto. Qed.

Lemma printed_prints (out : list string) : printed (map EPrint out) = out.
Proof. induction out; simpl; congruence. Qed.

Lemma print_all_run (out : list string) (st : state) :
  print_all out st = (Ok tt, mkState (params st) (trace st ++ map EPrint out)).
Proof.
  revert st. induction out as [|l r IH]; intros [p tr]; simpl.
  - unfold ret. now rewrite app_nil_r.
  - unfold cbind, print, emit. simpl. rewrite IH. simpl.
    now rewrite <- app_assoc.
Qed.

Lemma get_report_run W (report_id : string) (st : state) (raw : value) :
  fetched W (params st) report_id raw ->
  get_report W report_id st
  = (Ok raw, mkState (params st) (trace st ++ [EGet (report_url report_id) (params st)])).
Proof.
  intros (Hok & Hjson & _). unfold get_report, cbind, get_params, emit, lift.
  cbn [params trace]. now rewrite Hok, Hjson.
Qed.

Lemma submit_if_changed_run (report_id : string) (raw new : value) (st : state) :
  submit_if_changed report_id raw new st
  = (Ok tt, mkState (params st)
              (trace st ++ if py_eq new raw then []
                           else [EPost (update_url report_id) (params st) new;
                                 EPrint ("Done!" ++ NL)])).
Proof.
  unfold submit_if_changed, py_ne. destruct (py_eq new raw); cbn [negb].
  - unfold ret. rewrite app_nil_r. now destruct st.
  - unfold cbind, get_params, emit, print, emit. cbn [params trace].
    now rewrite <- app_assoc.
Qed.

(** The events of a run of [update_report_filter] that gets its report and
    its file, with a method that returns. *)
Lemma update_report_filter_run W func (report_id code file_name : string)
  (st : state) (raw new : value) (contents : string) (out : list string) :
  fetched W (params st) report_id raw ->
  file_content W file_name = Some contents ->
  func raw (Str.lower code)
       (str_list (read_values (Str.universal_newlines contents))) = (out, Ok new) ->
  update_report_filter W [report_id; code; file_name] func st
  = (Ok false,
     mkState [] (trace st ++
                 [EGet (report_url report_id) (params st); EOpen file_name] ++
                 map EPrint out ++
                 if py_eq new raw then []
                 else [EPost (update_url report_id) (params st) new;
                       EPrint ("Done!" ++ NL)])).
Proof.
  intros Hf Hfile Hrun. unfold update_report_filter.
  unfold cbind at 1. rewrite (get_report_run W report_id st raw Hf).
  destruct Hf as (_ & _ & ->).
  unfold cbind at 1. unfold read_text, cbind at 1, emit. cbn [params trace].
  rewrite Hfile. unfold ret at 1. rewrite Hrun. cbn [fst snd].
  unfold cbind at 1. rewrite print_all_run. cbn [params trace].
  unfold cbind at 1, lift.
  unfold cbind at 1. rewrite submit_if_changed_run. cbn [params trace].
  unfold cbind, set_params, ret. cbn [params trace].
  repeat rewrite <- app_assoc. reflexivity.
Qed.

Lemma remove_filter_args_run W (report_id code : string) (extra : list string)
  (p : query) (st : state) (raw new : value) (out : list string) :
  scope_params extra = Some p ->
  fetched W p report_id raw ->
  remove_filter raw (Str.lower code) = (out, Ok new) ->
  remove_filter_args W (report_id :: code :: extra) st
  = (Ok false,
     mkState [] (trace st ++
                 [EGet (report_url report_id) p] ++
                 map EPrint out ++
                 if py_eq new raw then []
                 else [EPost (update_url report_id) p new;
                       EPrint ("Done!" ++ NL)])).
Proof.
  intros Hp Hf Hrun.
  assert (Hbody : forall st0, params st0 = p ->
            remove_filter_body W report_id code st0
            = (Ok false,
               mkState [] (trace st0 ++
                 [EGet (report_url report_id) p] ++ map EPrint out ++
                 if py_eq new raw then []
                 else [EPost (update_url report_id) p new; EPrint ("Done!" ++ NL)]))).
  { intros st0 E. unfold remove_filter_body. rewrite <- E in Hf.
    unfold cbind at 1. rewrite (get_report_run W report_id st0 raw Hf).
    destruct Hf as (_ & _ & ->). rewrite Hrun. cbn [fst snd].
    unfold cbind at 1. rewrite print_all_run. cbn [params trace].
    unfold cbind at 1, lift.
    unfold cbind at 1. rewrite submit_if_changed_run. cbn [params trace].
    unfold cbind, set_params, ret. cbn [params trace]. rewrite E.
    repeat rewrite <- app_assoc. reflexivity. }
  destruct extra as [|aid [|]]; try discriminate; injection Hp as <-;
    unfold remove_filter_args, cbind at 1, set_params;
    now rewrite Hbody.
Qed.

Lemma decided_trace (st : state) (pre : list event) (out : list string)
  (url : string) (p : query) (raw new : value) :
  posts pre = [] -> printed pre = [] ->
  decided (Ok false,
           mkState [] (trace st ++ pre ++ map EPrint out ++
                       if py_eq new raw then []
                       else [EPost (update_url url) p new; EPrint ("Done!" ++ NL)]))
          st url raw new out.
Proof.
  intros Hpo Hpr. unfold decided. cbn [fst snd trace].
  rewrite !posts_app, !printed_app, Hpo, Hpr, posts_prints, printed_prints.
  destruct (py_eq new raw); auto.
Qed.

(** C3: a run of [update_report_filter] with any method, and a run of
    [remove_filter], that got the report [raw] and the report [new] from the
    method, posts [new] exactly when [new != raw]; when they are equal
    nothing is posted, nothing more is printed and the command ends
    normally. *)
Theorem submit_iff_changed W
  (func : value -> string -> value -> list string * result value)
  (report_id code file_name contents : string) (extra : list string) (p : query)
  (st : state) (raw new new_r : value) (out out_r : list string) :
  fetched W (params st) report_id raw ->
  file_content W file_name = Some contents ->
  func raw (Str.lower code)
       (str_list (read_values (Str.universal_newlines contents))) = (out, Ok new) ->
  scope_params extra = Some p ->
  fetched W p report_id raw ->
  remove_filter raw (Str.lower code) = (out_r, Ok new_r) ->
  decided (update_report_filter W [report_id; code; file_name] func st)
          st report_id raw new out /\
  decided (remove_filter_args W (report_id :: code :: extra) st)
          st report_id raw new_r out_r.
Proof.
  intros Hf Hfile Hrun Hp Hfp Hrem. split.
  - rewrite (update_report_filter_run W func report_id code file_name st raw new
               contents out Hf Hfile Hrun).
    now apply decided_trace.
  - rewrite (remove_filter_args_run W report_id code extra p st raw new_r out_r
               Hp Hfp Hrem).
    now apply decided_trace.
Qed.

Lemma submit_iff_changed_witness :
  decided (update_report_filter sample_world ["12"; "LOC"; "values.txt"]
                                change_filter_value start)
          start "12" scenario_a
          (walk (changed_filters "Location" (str_list ["a1"; "a2"])) scenario_a) [] /\
  decided (remove_filter_args sample_world ["12"; "LOC"] start)
          start "12" scenario_a (walk (dict_del "Location") scenario_a) [].
Proof.
  apply (submit_iff_changed sample_world change_filter_value "12" "LOC" "values.txt"
           ("a1" ++ NL ++ " a2 " ++ NL) [] [] start scenario_a
           (walk (changed_filters "Location" (str_list ["a1"; "a2"])) scenario_a)
           (walk (dict_del "Location") scenario_a) [] []);
    first [reflexivity | repeat split; reflexivity].
Defined.

(** C5: with a code that is not in the registry, each of the three methods
    returns the report it was given, whatever that report is, and prints that
    the code is not supported; a command run with such a code (once put in
    lower case) ends normally, prints that message and posts nothing. *)
Theorem unsupported_code_rejected W (D vals : value)
  (code typed report_id file_name contents : string) (extra : list string)
  (p : query) (st : state) (raw : value) :
  lookup code filter_code_to_name_map = None ->
  Str.lower typed = code ->
  fetched W (params st) report_id raw ->
  file_content W file_name = Some contents ->
  scope_params extra = Some p ->
  fetched W p report_id raw ->
  valid raw = true ->
  (change_filter_value D code vals = ([not_supported code], Ok D) /\
   add_filter_value D code vals = ([not_supported code], Ok D) /\
   remove_filter D code = ([not_supported code], Ok D)) /\
  rejected (update_report_filter W [report_id; typed; file_name] change_filter_value st)
           st code /\
  rejected (update_report_filter W [report_id; typed; file_name] add_filter_value st)
           st code /\
  rejected (remove_filter_args W (report_id :: typed :: extra) st) st code.
Proof.
  intros Hc Ht Hf Hfile Hp Hfp Hv. split; [|split; [|split]].
  - repeat split.
    + now apply change_filter_value_unsupported.
    + now apply add_filter_value_unsupported.
    + now apply remove_filter_unsupported.
  - rewrite (update_report_filter_run W change_filter_value report_id typed file_name
               st raw raw contents [not_supported code] Hf Hfile)
      by (rewrite Ht; now apply change_filter_value_unsupported).
    rewrite (py_eq_refl raw Hv). unfold rejected. cbn [fst snd trace].
    rewrite !posts_app, !printed_app. cbn. now rewrite !app_nil_r.
  - rewrite (update_report_filter_run W add_filter_value report_id typed file_name
               st raw raw contents [not_supported code] Hf Hfile)
      by (rewrite Ht; now apply add_filter_value_unsupported).
    rewrite (py_eq_refl raw Hv). unfold rejected. cbn [fst snd trace].
    rewrite !posts_app, !printed_app. cbn. now rewrite !app_nil_r.
  - rewrite (remove_filter_args_run W report_id typed extra p st raw raw
               [not_supported code] Hp Hfp)
      by (rewrite Ht; now apply remove_filter_unsupported).
    rewrite (py_eq_refl raw Hv). unfold rejected. cbn [fst snd trace].
    rewrite !posts_app, !printed_app. cbn. now rewrite !app_nil_r.
Qed.

Lemma unsupported_code_rejected_witness :
  (change_filter_value scenario_b "xx" (VList []) = ([not_supported "xx"], Ok scenario_b) /\
   add_filter_value scenario_b "xx" (VList []) = ([not_supported "xx"], Ok scenario_b) /\
   remove_filter scenario_b "xx" = ([not_supported "xx"], Ok scenario_b)) /\
  rejected (update_report_filter sample_world ["12"; "Xx"; "values.txt"]
                                 change_filter_value start) start "xx" /\
  rejected (update_report_filter sample_world ["12"; "Xx"; "values.txt"]
                                 add_filter_value start) start "xx" /\
  rejected (remove_filter_args sample_world ["12"; "Xx"; "77"] start) start "xx".
Proof.
  apply (unsupported_code_rejected sample_world scenario_b (VList []) "xx" "Xx" "12"
           "values.txt" ("a1" ++ NL ++ " a2 " ++ NL) ["77"] [("aid", "77")] start
           scenario_a);
    first [reflexivity | repeat split; reflexivity].
Defined.

(** C7: two codes with the same lower-case form make each of the three
    commands run alike: the same events, the same final state, the same
    result. *)
Theorem code_case_insensitive W (c c' report_id file_name : string)
  (extra : list string) (st : state) :
  Str.lower c = Str.lower c' ->
  change_filter_value_args W (report_id :: c :: file_name :: extra) st
  = change_filter_value_args W (report_id :: c' :: file_name :: extra) st /\
  add_filter_args W (report_id :: c :: file_name :: extra) st
  = add_filter_args W (report_id :: c' :: file_name :: extra) st /\
  remove_filter_args W (report_id :: c :: extra) st
  = remove_filter_args W (report_id :: c' :: extra) st.
Proof.
  intros H. repeat split.
  - destruct extra as [|aid [|]];
      cbn [change_filter_value_args firstn]; trivial;
      unfold update_report_filter; now rewrite H.
  - destruct extra as [|aid [|]];
      cbn [add_filter_args firstn]; trivial;
      unfold update_report_filter; now rewrite H.
  - destruct extra as [|aid [|]];
      cbn [remove_filter_args]; trivial;
      unfold remove_filter_body; now rewrite H.
Qed.

Lemma code_case_insensitive_witness :
  change_filter_value_args sample_world ["12"; "ea"; "values.txt"] start
  = change_filter_value_args sample_world ["12"; "EA"; "values.txt"] start /\
  add_filter_args sample_world ["12"; "ea"; "values.txt"] start
  = add_filter_args sample_world ["12"; "EA"; "values.txt"] start /\
  remove_filter_args sample_world ["12"; "ea"] start
  = remove_filter_args sample_world ["12"; "EA"] start.
Proof.
  apply (code_case_insensitive sample_world "ea" "EA" "12" "values.txt" [] start).
  reflexivity.
Defined.

(** The methods themselves look the code up as it is given: the commands put
    it in lower case before they call them. *)
Example methods_take_lower_case_codes :
  remove_filter scenario_a "LOC" = ([not_supported "LOC"], Ok scenario_a) /\
  remove_filter scenario_a (Str.lower "LOC")
  = ([], Ok (walk (dict_del "Location") scenario_a)).
Proof. split; reflexivity. Qed.

(** *** Scenarios *)


Example scenario_a_template :
  get_template_report scenario_a
  = Ok (VDict [("title", VStr "Weekly");
               ("widgets", VList [
                  VDict [("type", VStr "table");
                         ("filters", VDict [("Connection", VList [VStr "x"]);
                                            ("Location", VList [])])]])]).
Proof. reflexivity. Qed.

Example scenario_b_add :
  filter_maps scenario_b
  = [[("Platform", VList [VStr "p1"])]; [("Platform", VList [VStr "p1"])]] /\
  option_map filter_maps
    (match snd (add_filter_value scenario_b "ea" (str_list ["a1"; "a2"])) with
     | Ok D' => Some D'
     | Raise _ => None
     end)
  = Some [[("Platform", VList [VStr "p1"]);
           ("Endpoint Agents", VList [VStr "a1"; VStr "a2"])];
          [("Platform", VList [VStr "p1"]);
           ("Endpoint Agents", VList [VStr "a1"; VStr "a2"])]].
Proof. split; reflexivity. Qed.

(** Scenario C: [remove_filter ... loc] on a report without ['Location']
    posts nothing. *)
Example scenario_c_idle :
  remove_filter_args
    (mkWorld (fun _ _ => mkResponse true "b") (fun _ => None) (fun _ => Ok scenario_b))
    ["12"; "loc"] start
  = (Ok false, mkState [] [EGet (report_url "12") []]).
Proof. reflexivity. Qed.

(** Scenario D: when the service has no such report, no method is called
    and nothing is posted. *)
Example scenario_d_not_found :
  update_report_filter
    (mkWorld (fun _ _ => mkResponse false "") (fun _ => None) (fun _ => Raise ValueError))
    ["12"; "loc"; "values.txt"] add_filter_value start
  = (Ok false,
     mkState [] [EGet (report_url "12") [];
                 EPrint ("Report with id 12 does not exist" ++ NL)]).
Proof. reflexivity. Qed.

(** *** More about the four methods *)

Lemma walk_ext_in f g (D : value) :
  (forall m, In m (filter_maps D) -> f m = g m) -> walk f D = walk g D.
Proof.
  assert (Hc : forall c, (forall m, In m (card_filter_maps c) -> f m = g m) ->
                         walk_card f c = walk_card g c).
  { intros [| | | | |d]; simpl; trivial.
    destruct (lookup "filters" d) as [[| | | | |m]|]; trivial.
    intros H. rewrite H by now left. reflexivity. }
  assert (Hw : forall w, (forall m, In m (widget_filter_maps w) -> f m = g m) ->
                         walk_widget f w = walk_widget g w).
  { intros [| | | | |d]; simpl; trivial.
    destruct (lookup "numberCards" d) as [[| | | | cs|]|]; trivial.
    - intros H. do 3 f_equal. apply map_ext_in. intros c Hin. apply Hc.
      intros m Hm. apply H. apply in_flat_map. eauto.
    - apply (Hc (VDict d)). }
  destruct D as [| | | | |d]; simpl; trivial.
  destruct (lookup "widgets" d) as [[| | | | ws|]|]; trivial.
  intros H. do 3 f_equal. apply map_ext_in. intros w Hin. apply Hw.
  intros m Hm. apply H. apply in_flat_map. eauto.
Qed.

Lemma valid_entry (d : dict) (k : string) (v : value) :
  valid (VDict d) = true -> lookup k d = Some v -> valid v = true.
Proof.
  simpl. rewrite andb_true_iff. intros [_ H]. rewrite forallb_forall in H.
  induction d as [|[j w] r IH]; simpl; [discriminate|].
  destruct (String.eqb j k).
  - intros [= <-]. apply (H (j, w)). now left.
  - intros E. apply IH; [|exact E]. intros x Hx. apply H. now right.
Qed.

Lemma valid_element (l : list value) (x : value) :
  valid (VList l) = true -> In x l -> valid x = true.
Proof. simpl. rewrite forallb_forall. auto. Qed.

(** In a report without repeated keys no filter map repeats a key. *)
Lemma valid_filter_maps (D : value) (m : dict) :
  valid D = true -> In m (filter_maps D) -> nodupb (keys m) = true.
Proof.
  assert (Hc : forall c, valid c = true -> In m (card_filter_maps c) ->
                         nodupb (keys m) = true).
  { intros [| | | | |d]; simpl; try tauto.
    destruct (lookup "filters" d) as [[| | | | |m']|] eqn:E; simpl; try tauto.
    intros V [<-|[]]. pose proof (valid_entry d _ _ V E) as Vm.
    simpl in Vm. now apply andb_true_iff in Vm as [Vm _]. }
  intros V. destruct D as [| | | | |d]; simpl; try tauto.
  destruct (lookup "widgets" d) as [[| | | | ws|]|] eqn:E; simpl; try tauto.
  pose proof (valid_entry d _ _ V E) as Vws.
  rewrite in_flat_map. intros ([| | | | |dw] & Hin & Hm); simpl in Hm; try tauto.
  pose proof (valid_element ws _ Vws Hin) as Vw.
  destruct (lookup "numberCards" dw) as [[| | | | cs|]|] eqn:F; simpl in Hm; try tauto.
  - pose proof (valid_entry dw _ _ Vw F) as Vcs.
    apply in_flat_map in Hm as (c & Hc1 & Hc2).
    exact (Hc c (valid_element cs _ Vcs Hc1) Hc2).
  - exact (Hc (VDict dw) Vw Hm).
Qed.

Lemma mem_keys_lookup {A} (k : string) (d : list (string * A)) :
  mem k (keys d) = false -> lookup k d = None.
Proof.
  unfold keys. induction d as [|[j w] r IH]; simpl; [reflexivity|].
  rewrite orb_false_iff. intros [E H]. now rewrite E, IH.
Qed.

Lemma changed_set name vals (m : dict) :
  nodupb (keys m) = true ->
  changed_filters name vals (dict_set name vals m) = dict_set name vals m.
Proof.
  unfold keys. induction m as [|[j w] r IH]; simpl.
  - intros _. now rewrite String.eqb_refl.
  - rewrite andb_true_iff, negb_true_iff. intros [Hj Hr].
    destruct (String.eqb_spec j name) as [->|N]; simpl.
    + rewrite String.eqb_refl. f_equal.
      apply changed_absent. now apply mem_keys_lookup.
    + destruct (String.eqb_spec j name); [congruence|]. f_equal. now apply IH.
Qed.

Lemma changed_changed name vals (m : dict) :
  changed_filters name vals (changed_filters name vals m)
  = changed_filters name vals m.
Proof.
  unfold changed_filters. rewrite map_map. apply map_ext.
  intros [k v]. cbn [fst snd]. now destruct (String.eqb k name).
Qed.

Lemma del_set {A} (k : string) (v : A) (d : list (string * A)) :
  dict_del k (dict_set k v d) = dict_del k d.
Proof.
  unfold dict_del. induction d as [|[j w] r IH]; simpl.
  - now rewrite String.eqb_refl.
  - destruct (String.eqb j k) eqn:E; simpl; rewrite E; simpl; [reflexivity|].
    now rewrite IH.
Qed.

Lemma template_set name vals (m : dict) :
  mem name PERSISTENT_FILTERS = false ->
  template_filters (dict_set name vals m)
  = dict_set name (VList []) (template_filters m).
Proof.
  intros P. unfold template_filters.
  induction m as [|[j w] r IH]; cbn [dict_set map fst snd].
  - now rewrite P.
  - destruct (String.eqb_spec j name) as [->|N]; cbn [map fst snd].
    + now rewrite P.
    + now rewrite IH.
Qed.

Lemma template_changed name vals (m : dict) :
  mem name PERSISTENT_FILTERS = false ->
  template_filters (changed_filters name vals m)
  = changed_filters name (VList []) (template_filters m).
Proof.
  intros P. unfold template_filters, changed_filters. rewrite !map_map.
  apply map_ext. intros [k v]. cbn [fst snd].
  destruct (String.eqb_spec k name) as [->|N]; [now rewrite P|reflexivity].
Qed.

Lemma template_del name (m : dict) :
  template_filters (dict_del name m) = dict_del name (template_filters m).
Proof.
  unfold template_filters, dict_del.
  induction m as [|[j w] r IH]; cbn [filter map fst snd]; [reflexivity|].
  destruct (String.eqb j name); cbn [negb map fst snd]; now rewrite IH.
Qed.

Lemma registry_not_persistent code name :
  lookup code filter_code_to_name_map = Some name ->
  mem name PERSISTENT_FILTERS = false.
Proof.
  intros E. destruct (registry_names code name E) as [N1 N2].
  unfold PERSISTENT_FILTERS. cbn [mem].
  destruct (String.eqb_spec "Connection" name); [congruence|].
  destruct (String.eqb_spec "Platform" name); [congruence|]. reflexivity.
Qed.

(** X1: on a well-formed report without repeated keys, changing a filter to
    the values it was just added with changes nothing:
    [change_filter_value] applied to the result of [add_filter_value], with
    the same code and values, returns that result. *)
Theorem add_then_change_same (D : value) (code name : string) (vals : value) :
  wf_report D = true -> valid D = true ->
  lookup code filter_code_to_name_map = Some name ->
  exists D1, snd (add_filter_value D code vals) = Ok D1 /\
             snd (change_filter_value D1 code vals) = Ok D1.
Proof.
  intros H V E. exists (walk (dict_set name vals) D).
  rewrite (add_filter_value_walk D code name vals H E).
  split; [reflexivity|].
  rewrite (change_filter_value_walk _ code name vals) by (trivial; now rewrite wf_walk).
  cbn [snd]. rewrite walk_walk. f_equal. apply walk_ext_in.
  intros m Hm. apply changed_set. now apply (valid_filter_maps D).
Qed.

Lemma add_then_change_same_witness :
  exists D1, snd (add_filter_value scenario_b "ea" (VList [VStr "a"])) = Ok D1 /\
             snd (change_filter_value D1 "ea" (VList [VStr "a"])) = Ok D1.
Proof.
  apply (add_then_change_same scenario_b "ea" "Endpoint Agents" (VList [VStr "a"]));
    reflexivity.
Defined.

(** X2: on a well-formed report, [add_filter_value] and
    [change_filter_value] applied to their own result, with the same code and
    values, return that result. *)
Theorem add_and_change_idempotent (D : value) (code : string) (vals : value) :
  wf_report D = true ->
  (exists D1, snd (add_filter_value D code vals) = Ok D1 /\
              snd (add_filter_value D1 code vals) = Ok D1) /\
  (exists D1, snd (change_filter_value D code vals) = Ok D1 /\
              snd (change_filter_value D1 code vals) = Ok D1).
Proof.
  intros H. destruct (lookup code filter_code_to_name_map) as [name|] eqn:E.
  - split.
    + exists (walk (dict_set name vals) D).
      rewrite (add_filter_value_walk D code name vals H E). split; [reflexivity|].
      rewrite (add_filter_value_walk _ code name vals) by (trivial; now rewrite wf_walk).
      cbn [snd]. rewrite walk_walk. f_equal. apply walk_ext. intros m. apply set_set.
    + exists (walk (changed_filters name vals) D).
      rewrite (change_filter_value_walk D code name vals H E). split; [reflexivity|].
      rewrite (change_filter_value_walk _ code name vals)
        by (trivial; now rewrite wf_walk).
      cbn [snd]. rewrite walk_walk. f_equal. apply walk_ext. intros m.
      apply changed_changed.
  - split; exists D.
    + now rewrite (add_filter_value_unsupported D code vals E).
    + now rewrite (change_filter_value_unsupported D code vals E).
Qed.

Lemma add_and_change_idempotent_witness :
  (exists D1, snd (add_filter_value scenario_b "mn" (VList [VStr "a"])) = Ok D1 /\
              snd (add_filter_value D1 "mn" (VList [VStr "a"])) = Ok D1) /\
  (exists D1, snd (change_filter_value scenario_b "mn" (VList [VStr "a"])) = Ok D1 /\
              snd (change_filter_value D1 "mn" (VList [VStr "a"])) = Ok D1).
Proof.
  apply (add_and_change_idempotent scenario_b "mn" (VList [VStr "a"])). reflexivity.
Defined.

(** X3: on a well-formed report, removing a filter that was just added gives
    the report that removing it from the original gives: [remove_filter]
    undoes [add_filter_value] up to the filter the report had before. *)
Theorem remove_after_add (D : value) (code : string) (vals : value) :
  wf_report D = true ->
  exists D1 R, snd (add_filter_value D code vals) = Ok D1 /\
               snd (remove_filter D1 code) = Ok R /\
               snd (remove_filter D code) = Ok R.
Proof.
  intros H. destruct (lookup code filter_code_to_name_map) as [name|] eqn:E.
  - exists (walk (dict_set name vals) D), (walk (dict_del name) D).
    rewrite (add_filter_value_walk D code name vals H E),
            (remove_filter_walk D code name H E).
    rewrite (remove_filter_walk _ code name) by (trivial; now rewrite wf_walk).
    cbn [snd]. repeat split. rewrite walk_walk. f_equal. apply walk_ext.
    intros m. apply del_set.
  - exists D, D.
    now rewrite (add_filter_value_unsupported D code vals E),
                (remove_filter_unsupported D code E).
Qed.

Lemma remove_after_add_witness :
  exists D1 R, snd (add_filter_value scenario_a "loc" (VList [VStr "z"])) = Ok D1 /\
               snd (remove_filter D1 "loc") = Ok R /\
               snd (remove_filter scenario_a "loc") = Ok R.
Proof. apply (remove_after_add scenario_a "loc" (VList [VStr "z"])). reflexivity. Defined.

(** X4: on a well-formed report, the template of a transformed report is the
    transform of the template, with empty values: templating after
    [add_filter_value] or [change_filter_value] gives what adding or changing
    to the empty list gives on the template, and templating after
    [remove_filter] gives what removing gives on the template. *)
Theorem template_commutes (D : value) (code : string) (vals : value) :
  wf_report D = true ->
  exists T, get_template_report D = Ok T /\
    (exists D1 R, snd (add_filter_value D code vals) = Ok D1 /\
                  get_template_report D1 = Ok R /\
                  snd (add_filter_value T code (VList [])) = Ok R) /\
    (exists D1 R, snd (change_filter_value D code vals) = Ok D1 /\
                  get_template_report D1 = Ok R /\
                  snd (change_filter_value T code (VList [])) = Ok R) /\
    (exists D1 R, snd (remove_filter D code) = Ok D1 /\
                  get_template_report D1 = Ok R /\
                  snd (remove_filter T code) = Ok R).
Proof.
  intros H. exists (walk template_filters D).
  split; [now apply get_template_report_walk|].
  assert (HT : wf_report (walk template_filters D) = true) by now rewrite wf_walk.
  destruct (lookup code filter_code_to_name_map) as [name|] eqn:E.
  - pose proof (registry_not_persistent code name E) as P.
    split; [|split].
    + exists (walk (dict_set name vals) D),
             (walk (fun m => template_filters (dict_set name vals m)) D).
      rewrite (add_filter_value_walk D code name vals H E),
              (add_filter_value_walk _ code name (VList []) HT E).
      rewrite get_template_report_walk by now rewrite wf_walk.
      cbn [snd]. rewrite !walk_walk. repeat split. f_equal. apply walk_ext.
      intros m. symmetry. now apply template_set.
    + exists (walk (changed_filters name vals) D),
             (walk (fun m => template_filters (changed_filters name vals m)) D).
      rewrite (change_filter_value_walk D code name vals H E),
              (change_filter_value_walk _ code name (VList []) HT E).
      rewrite get_template_report_walk by now rewrite wf_walk.
      cbn [snd]. rewrite !walk_walk. repeat split. f_equal. apply walk_ext.
      intros m. symmetry. now apply template_changed.
    + exists (walk (dict_del name) D),
             (walk (fun m => template_filters (dict_del name m)) D).
      rewrite (remove_filter_walk D code name H E),
              (remove_filter_walk _ code name HT E).
      rewrite get_template_report_walk by now rewrite wf_walk.
      cbn [snd]. rewrite !walk_walk. repeat split. f_equal. apply walk_ext.
      intros m. symmetry. apply template_del.
  - rewrite (add_filter_value_unsupported D code vals E),
            (change_filter_value_unsupported D code vals E),
            (remove_filter_unsupported D code E),
            (add_filter_value_unsupported _ code (VList []) E),
            (change_filter_value_unsupported _ code (VList []) E),
            (remove_filter_unsupported _ code E).
    cbn [snd].
    repeat split; exists D, (walk template_filters D);
      repeat split; now apply get_template_report_walk.
Qed.

Lemma template_commutes_witness :
  exists T, get_template_report scenario_a = Ok T /\
    (exists D1 R, snd (add_filter_value scenario_a "ea" (VList [VStr "a"])) = Ok D1 /\
                  get_template_report D1 = Ok R /\
                  snd (add_filter_value T "ea" (VList [])) = Ok R) /\
    (exists D1 R, snd (change_filter_value scenario_a "ea" (VList [VStr "a"])) = Ok D1 /\
                  get_template_report D1 = Ok R /\
                  snd (change_filter_value T "ea" (VList [])) = Ok R) /\
    (exists D1 R, snd (remove_filter scenario_a "ea") = Ok D1 /\
                  get_template_report D1 = Ok R /\
                  snd (remove_filter T "ea") = Ok R).
Proof. apply (template_commutes scenario_a "ea" (VList [VStr "a"])). reflexivity. Defined.

(** X5: the report each method returns on a well-formed report is
    well-formed again, so the methods can be applied one after the other. *)
Theorem transforms_keep_well_formed (D : value) (code : string) (vals : value) :
  wf_report D = true ->
  (exists D', get_template_report D = Ok D' /\ wf_report D' = true) /\
  (exists D', snd (change_filter_value D code vals) = Ok D' /\ wf_report D' = true) /\
  (exists D', snd (add_filter_value D code vals) = Ok D' /\ wf_report D' = true) /\
  (exists D', snd (remove_filter D code) = Ok D' /\ wf_report D' = true).
Proof.
  intros H. split.
  { eexists. split; [now apply get_template_report_walk|]. now rewrite wf_walk. }
  destruct (lookup code filter_code_to_name_map) as [name|] eqn:E.
  - rewrite (change_filter_value_walk D code name vals H E),
            (add_filter_value_walk D code name vals H E),
            (remove_filter_walk D code name H E).
    cbn [snd]. repeat split; eexists; (split; [reflexivity|now rewrite wf_walk]).
  - rewrite (change_filter_value_unsupported D code vals E),
            (add_filter_value_unsupported D code vals E),
            (remove_filter_unsupported D code E).
    cbn [snd]. repeat split; exists D; now split.
Qed.

Lemma transforms_keep_well_formed_witness :
  (exists D', get_template_report scenario_b = Ok D' /\ wf_report D' = true) /\
  (exists D', snd (change_filter_value scenario_b "ea" (VList [])) = Ok D' /\
              wf_report D' = true) /\
  (exists D', snd (add_filter_value scenario_b "ea" (VList [])) = Ok D' /\
              wf_report D' = true) /\
  (exists D', snd (remove_filter scenario_b "ea") = Ok D' /\ wf_report D' = true).
Proof.
  apply (transforms_keep_well_formed scenario_b "ea" (VList [])). reflexivity.
Defined.

(** X6: when [report['widgets']] cannot be read (the report has no such
    key: [KeyError]; the report is not a dictionary: [TypeError]), the four
    methods raise that exception; the three that take a code do so when the
    code is in the registry. *)
Theorem methods_need_widgets (D : value) (code name : string) (vals : value)
  (e : exn) :
  getitem D "widgets" = Raise e ->
  lookup code filter_code_to_name_map = Some name ->
  get_template_report D = Raise e /\
  snd (change_filter_value D code vals) = Raise e /\
  snd (add_filter_value D code vals) = Raise e /\
  snd (remove_filter D code) = Raise e.
Proof.
  intros H E.
  unfold get_template_report, change_filter_value, add_filter_value, remove_filter.
  rewrite E, deepcopy_same. cbn [snd]. unfold for_widgets. rewrite H.
  repeat split.
Qed.

Lemma methods_need_widgets_witness :
  get_template_report (VDict [("title", VStr "t")]) = Raise KeyError /\
  snd (change_filter_value (VDict [("title", VStr "t")]) "ea" (VList [])) = Raise KeyError /\
  snd (add_filter_value (VDict [("title", VStr "t")]) "ea" (VList [])) = Raise KeyError /\
  snd (remove_filter (VDict [("title", VStr "t")]) "ea") = Raise KeyError.
Proof.
  apply (methods_need_widgets (VDict [("title", VStr "t")]) "ea" "Endpoint Agents"
           (VList []) KeyError); reflexivity.
Defined.

Lemma mapM_fails {A B} (f : A -> result B) (l : list A) (x : A) :
  In x l -> fails (f x) -> fails (mapM f l).
Proof.
  intros Hin Hx. induction l as [|y r IH]; [destruct Hin|].
  simpl. destruct Hin as [->|Hin].
  - destruct Hx as [e ->]. now exists e.
  - destruct (f y) as [b|e]; simpl; [|now exists e].
    destruct (IH Hin) as [e ->]. now exists e.
Qed.

Lemma for_widgets_bare_card (stmt : value -> result value) (D : value) :
  (forall dc, lookup "filters" dc = None -> fails (stmt (VDict dc))) ->
  has_bare_card D = true -> fails (for_widgets stmt D).
Proof.
  intros Hs H. destruct D as [| | | | |d]; try discriminate. simpl in H.
  destruct (lookup "widgets" d) as [[| | | | ws|]|] eqn:Hws; try discriminate.
  apply existsb_exists in H as (w & Hw & Hb).
  destruct w as [| | | | |dw]; try discriminate. simpl in Hb.
  destruct (lookup "numberCards" dw) as [[| | | | cs|]|] eqn:Hcs; try discriminate.
  apply existsb_exists in Hb as (c & Hc & Hf).
  destruct c as [| | | | |dc]; try discriminate. simpl in Hf.
  unfold has_key in Hf. destruct (lookup "filters" dc) eqn:F; try discriminate.
  unfold for_widgets. simpl. rewrite Hws. simpl.
  assert (Hfw : fails (for_widget stmt (VDict dw))).
  { unfold for_widget, for_cards. simpl. unfold has_key. rewrite Hcs. simpl.
    destruct (mapM_fails stmt cs (VDict dc) Hc (Hs dc F)) as [e ->]. now exists e. }
  destruct (mapM_fails (for_widget stmt) ws (VDict dw) Hw Hfw) as [e ->].
  now exists e.
Qed.



Lemma untouched_walk_widget f (w : value) : untouched w (walk_widget f w).
Proof.
  destruct w as [| | | | |d]; simpl; trivial.
  destruct (lookup "numberCards" d) as [[| | | | cs|]|] eqn:E; simpl; trivial.
  - now rewrite lookup_set_other by discriminate.
  - destruct (lookup "filters" d) as [[| | | | |m]|] eqn:F; simpl; rewrite ?F; trivial.
Qed.

Lemma untouched_walk f (D : value) :
  Forall2 untouched (widgets_of D) (widgets_of (walk f D)).
Proof.
  rewrite widgets_of_walk. apply Forall2_map_graph, untouched_walk_widget.
Qed.

(** X8: on a well-formed report, widget by widget, no method touches the
    ['filters'] entry that a widget with cards has beside them, and no
    method changes a widget that has neither cards nor ['filters']:
    [add_filter_value] gives such a widget no filter map. *)
Theorem methods_leave_untouched (D : value) (code : string) (vals : value) :
  wf_report D = true ->
  (exists D', get_template_report D = Ok D' /\
              Forall2 untouched (widgets_of D) (widgets_of D')) /\
  (exists D', snd (change_filter_value D code vals) = Ok D' /\
              Forall2 untouched (widgets_of D) (widgets_of D')) /\
  (exists D', snd (add_filter_value D code vals) = Ok D' /\
              Forall2 untouched (widgets_of D) (widgets_of D')) /\
  (exists D', snd (remove_filter D code) = Ok D' /\
              Forall2 untouched (widgets_of D) (widgets_of D')).
Proof.
  intros H. split.
  { eexists. split; [now apply get_template_report_walk|]. apply untouched_walk. }
  destruct (lookup code filter_code_to_name_map) as [name|] eqn:E.
  - rewrite (change_filter_value_walk D code name vals H E),
            (add_filter_value_walk D code name vals H E),
            (remove_filter_walk D code name H E).
    cbn [snd]. repeat split; eexists; (split; [reflexivity|apply untouched_walk]).
  - rewrite (change_filter_value_unsupported D code vals E),
            (add_filter_value_unsupported D code vals E),
            (remove_filter_unsupported D code E).
    cbn [snd].
    assert (Hsame : Forall2 untouched (widgets_of D) (widgets_of D)).
    { rewrite <- (walk_fixed (fun m => m) D) at 2 by trivial. apply untouched_walk. }
    repeat split; exists D; now split.
Qed.

Lemma methods_leave_untouched_witness :
  (exists D', get_template_report mixed_report = Ok D' /\
              Forall2 untouched (widgets_of mixed_report) (widgets_of D')) /\
  (exists D', snd (change_filter_value mixed_report "loc" (VList [])) = Ok D' /\
              Forall2 untouched (widgets_of mixed_report) (widgets_of D')) /\
  (exists D', snd (add_filter_value mixed_report "loc" (VList [])) = Ok D' /\
              Forall2 untouched (widgets_of mixed_report) (widgets_of D')) /\
  (exists D', snd (remove_filter mixed_report "loc") = Ok D' /\
              Forall2 untouched (widgets_of mixed_report) (widgets_of D')).
Proof. apply (methods_leave_untouched mixed_report "loc" (VList [])). reflexivity. Defined.

(** *** More about the runs of the commands *)

Lemma get_report_not_ok W (report_id : string) (st : state) :
  ok (http_get W (report_url report_id) (params st)) = false ->
  get_report W report_id st
  = (Ok VNone,
     mkState (params st)
             (trace st ++ [EGet (report_url report_id) (params st);
                           EPrint (not_found report_id)])).
Proof.
  intros H. unfold get_report, cbind, get_params, emit, print, emit, ret.
  cbn [params trace]. rewrite H. cbn [negb params trace].
  now rewrite <- app_assoc.
Qed.

Lemma get_report_answer W (report_id : string) (st : state) :
  ok (http_get W (report_url report_id) (params st)) = true ->
  get_report W report_id st
  = (json_loads W (text (http_get W (report_url report_id) (params st))),
     mkState (params st) (trace st ++ [EGet (report_url report_id) (params st)])).
Proof.
  intros H. unfold get_report, cbind, get_params, emit, lift.
  cbn [params trace]. now rewrite H.
Qed.

(** A command first stores its scope in the session. *)
Lemma add_filter_args_scope W (report_id code file_name : string)
  (extra : list string) (p : query) (st : state) :
  scope_params extra = Some p ->
  add_filter_args W (report_id :: code :: file_name :: extra) st
  = update_report_filter W [report_id; code; file_name] add_filter_value
      (mkState p (trace st)).
Proof.
  intros H. destruct extra as [|aid [|]]; try discriminate;
    injection H as <-; reflexivity.
Qed.

Lemma change_filter_value_args_scope W (report_id code file_name : string)
  (extra : list string) (p : query) (st : state) :
  scope_params extra = Some p ->
  change_filter_value_args W (report_id :: code :: file_name :: extra) st
  = update_report_filter W [report_id; code; file_name] change_filter_value
      (mkState p (trace st)).
Proof.
  intros H. destruct extra as [|aid [|]]; try discriminate;
    injection H as <-; reflexivity.
Qed.

Lemma remove_filter_args_scope W (report_id code : string)
  (extra : list string) (p : query) (st : state) :
  scope_params extra = Some p ->
  remove_filter_args W (report_id :: code :: extra) st
  = remove_filter_body W report_id code (mkState p (trace st)).
Proof.
  intros H. destruct extra as [|aid [|]]; try discriminate;
    injection H as <-; reflexivity.
Qed.

Lemma changed_present name vals (m : dict) :
  nodupb (keys m) = true -> lookup name m = Some vals ->
  changed_filters name vals m = m.
Proof.
  intros Hn Hl. rewrite <- (set_same name vals m Hl) at 1.
  rewrite (changed_set name vals m Hn). now apply set_same.
Qed.



(** X10: when every filter map of the fetched report already maps the field
    of the code to the values of the file, [add_filter_value] and
    [change_filter_value] run to the end without posting or printing
    anything: running a command a second time with the same file sends
    nothing. *)
Theorem same_values_is_noop W (report_id code name file_name contents : string)
  (extra : list string) (p : query) (st : state) (raw : value) :
  wf_report raw = true -> valid raw = true ->
  lookup (Str.lower code) filter_code_to_name_map = Some name ->
  map (lookup name) (filter_maps raw)
  = map (fun _ => Some (str_list (read_values (Str.universal_newlines contents))))
        (filter_maps raw) ->
  scope_params extra = Some p ->
  fetched W p report_id raw ->
  file_content W file_name = Some contents ->
  add_filter_args W (report_id :: code :: file_name :: extra) st
  = (Ok false,
     mkState [] (trace st ++ [EGet (report_url report_id) p; EOpen file_name])) /\
  change_filter_value_args W (report_id :: code :: file_name :: extra) st
  = (Ok false,
     mkState [] (trace st ++ [EGet (report_url report_id) p; EOpen file_name])).
Proof.
  intros Hwf Hv E Hsame Hp Hf Hfile.
  set (vals := str_list (read_values (Str.universal_newlines contents))) in *.
  assert (Hm : forall m, In m (filter_maps raw) -> lookup name m = Some vals).
  { now apply map_ext_in_iff. }
  split.
  - rewrite (add_filter_args_scope W _ _ _ extra p st Hp).
    rewrite (update_report_filter_run W add_filter_value report_id code file_name
               (mkState p (trace st)) raw raw contents [] Hf Hfile).
    + rewrite (py_eq_refl raw Hv). cbn [params trace map app].
      now rewrite ?app_nil_r.
    + fold vals. rewrite (add_filter_value_walk raw _ name _ Hwf E).
      rewrite walk_fixed; [reflexivity|].
      intros m Hin. apply set_same. now apply Hm.
  - rewrite (change_filter_value_args_scope W _ _ _ extra p st Hp).
    rewrite (update_report_filter_run W change_filter_value report_id code file_name
               (mkState p (trace st)) raw raw contents [] Hf Hfile).
    + rewrite (py_eq_refl raw Hv). cbn [params trace map app].
      now rewrite ?app_nil_r.
    + fold vals. rewrite (change_filter_value_walk raw _ name _ Hwf E).
      rewrite walk_fixed; [reflexivity|].
      intros m Hin. apply changed_present; [|now apply Hm].
      now apply (valid_filter_maps raw).
Qed.

Lemma same_values_is_noop_witness :
  add_filter_args located_world ["12"; "loc"; "values.txt"] start
  = (Ok false,
     mkState [] (trace start ++ [EGet (report_url "12") []; EOpen "values.txt"])) /\
  change_filter_value_args located_world ["12"; "loc"; "values.txt"] start
  = (Ok false,
     mkState [] (trace start ++ [EGet (report_url "12") []; EOpen "values.txt"])).
Proof.
  apply (same_values_is_noop located_world "12" "loc" "Location" "values.txt"
           ("a1" ++ NL ++ " a2 " ++ NL) [] [] start located_report);
    first [reflexivity | repeat split; reflexivity].
Defined.

(** X11: with a number of arguments that is neither the one the command
    needs nor one more, the three commands print the message of invalid
    arguments and do nothing else: no request, session unchanged. *)
Theorem wrong_arity_is_refused W (args3 args2 : list string) (st : state) :
  arity 3 args3 = false -> arity 2 args2 = false ->
  add_filter_args W args3 st
  = (Ok false, mkState (params st) (trace st ++ [EPrint INVALID_ARGUMENTS_MSG])) /\
  change_filter_value_args W args3 st
  = (Ok false, mkState (params st) (trace st ++ [EPrint INVALID_ARGUMENTS_MSG])) /\
  remove_filter_args W args2 st
  = (Ok false, mkState (params st) (trace st ++ [EPrint INVALID_ARGUMENTS_MSG])).
Proof.
  intros H3 H2. repeat split.
  - destruct args3 as [|a [|b [|c [|d [|e r]]]]]; try discriminate; reflexivity.
  - destruct args3 as [|a [|b [|c [|d [|e r]]]]]; try discriminate; reflexivity.
  - destruct args2 as [|a [|b [|c [|d r]]]]; try discriminate; reflexivity.
Qed.

Lemma wrong_arity_is_refused_witness :
  add_filter_args sample_world ["12"; "ea"] start
  = (Ok false, mkState (params start) (trace start ++ [EPrint INVALID_ARGUMENTS_MSG])) /\
  change_filter_value_args sample_world ["12"; "ea"] start
  = (Ok false, mkState (params start) (trace start ++ [EPrint INVALID_ARGUMENTS_MSG])) /\
  remove_filter_args sample_world ["12"] start
  = (Ok false, mkState (params start) (trace start ++ [EPrint INVALID_ARGUMENTS_MSG])).
Proof.
  apply (wrong_arity_is_refused sample_world ["12"; "ea"] ["12"] start); reflexivity.
Defined.

(** X12: when the service refuses the GET, the three commands print that the
    report does not exist and stop: the values file is not opened, nothing
    is posted, and the session keeps the scope of the command (it is not
    reset to the empty one as at the end of a complete run). *)
Theorem refused_fetch_stops W (report_id code file_name : string)
  (extra : list string) (p : query) (st : state) :
  scope_params extra = Some p ->
  ok (http_get W (report_url report_id) p) = false ->
  add_filter_args W (report_id :: code :: file_name :: extra) st
  = (Ok false,
     mkState p (trace st ++ [EGet (report_url report_id) p;
                             EPrint (not_found report_id)])) /\
  change_filter_value_args W (report_id :: code :: file_name :: extra) st
  = (Ok false,
     mkState p (trace st ++ [EGet (report_url report_id) p;
                             EPrint (not_found report_id)])) /\
  remove_filter_args W (report_id :: code :: extra) st
  = (Ok false,
     mkState p (trace st ++ [EGet (report_url report_id) p;
                             EPrint (not_found report_id)])).
Proof.
  intros Hp Hok.
  rewrite (add_filter_args_scope W _ _ _ extra p st Hp),
          (change_filter_value_args_scope W _ _ _ extra p st Hp),
          (remove_filter_args_scope W _ _ extra p st Hp).
  unfold update_report_filter, remove_filter_body, cbind.
  rewrite (get_report_not_ok W report_id (mkState p (trace st)) Hok).
  repeat split.
Qed.

Lemma refused_fetch_stops_witness :
  add_filter_args empty_world ["12"; "ea"; "values.txt"; "77"] start
  = (Ok false,
     mkState [("aid", "77")]
             (trace start ++ [EGet (report_url "12") [("aid", "77")];
                              EPrint (not_found "12")])) /\
  change_filter_value_args empty_world ["12"; "ea"; "values.txt"; "77"] start
  = (Ok false,
     mkState [("aid", "77")]
             (trace start ++ [EGet (report_url "12") [("aid", "77")];
                              EPrint (not_found "12")])) /\
  remove_filter_args empty_world ["12"; "ea"; "77"] start
  = (Ok false,
     mkState [("aid", "77")]
             (trace start ++ [EGet (report_url "12") [("aid", "77")];
                              EPrint (not_found "12")])).
Proof.
  apply (refused_fetch_stops empty_world "12" "ea" "values.txt" ["77"]
           [("aid", "77")] start); reflexivity.
Defined.

(** X13: when the service answers the GET with the JSON text [null],
    [get_report] returns [None] without a message and the three commands
    stop silently: the only event is the GET. *)
Theorem null_report_stops_silently W (report_id code file_name : string)
  (extra : list string) (p : query) (st : state) :
  scope_params extra = Some p ->
  ok (http_get W (report_url report_id) p) = true ->
  json_loads W (text (http_get W (report_url report_id) p)) = Ok VNone ->
  add_filter_args W (report_id :: code :: file_name :: extra) st
  = (Ok false, mkState p (trace st ++ [EGet (report_url report_id) p])) /\
  change_filter_value_args W (report_id :: code :: file_name :: extra) st
  = (Ok false, mkState p (trace st ++ [EGet (report_url report_id) p])) /\
  remove_filter_args W (report_id :: code :: extra) st
  = (Ok false, mkState p (trace st ++ [EGet (report_url report_id) p])).
Proof.
  intros Hp Hok Hnull.
  rewrite (add_filter_args_scope W _ _ _ extra p st Hp),
          (change_filter_value_args_scope W _ _ _ extra p st Hp),
          (remove_filter_args_scope W _ _ extra p st Hp).
  unfold update_report_filter, remove_filter_body, cbind.
  rewrite (get_report_answer W report_id (mkState p (trace st)) Hok).
  cbn [params trace]. rewrite Hnull. repeat split.
Qed.

Lemma null_report_stops_silently_witness :
  add_filter_args null_world ["12"; "ea"; "values.txt"] start
  = (Ok false, mkState [] (trace start ++ [EGet (report_url "12") []])) /\
  change_filter_value_args null_world ["12"; "ea"; "values.txt"] start
  = (Ok false, mkState [] (trace start ++ [EGet (report_url "12") []])) /\
  remove_filter_args null_world ["12"; "ea"] start
  = (Ok false, mkState [] (trace start ++ [EGet (report_url "12") []])).
Proof.
  apply (null_report_stops_silently null_world "12" "ea" "values.txt" [] [] start);
    reflexivity.
Defined.

Lemma update_report_filter_no_file W func (report_id code file_name : string)
  (st : state) (raw : value) :
  fetched W (params st) report_id raw ->
  file_content W file_name = None ->
  update_report_filter W [report_id; code; file_name] func st
  = (Raise OSError,
     mkState (params st)
             (trace st ++ [EGet (report_url report_id) (params st); EOpen file_name])).
Proof.
  intros Hf Hfile. unfold update_report_filter.
  unfold cbind at 1. rewrite (get_report_run W report_id st raw Hf).
  destruct Hf as (_ & _ & ->).
  unfold cbind at 1. unfold read_text, cbind at 1, emit. cbn [params trace].
  rewrite Hfile. unfold lift. now rewrite <- app_assoc.
Qed.

(** X14: when the values file cannot be opened, [add_filter] and
    [change_filter_value] raise [OSError] after the GET: the method is not
    called, nothing is posted, and the session keeps the scope. *)
Theorem missing_file_raises W (report_id code file_name : string)
  (extra : list string) (p : query) (st : state) (raw : value) :
  scope_params extra = Some p ->
  fetched W p report_id raw ->
  file_content W file_name = None ->
  add_filter_args W (report_id :: code :: file_name :: extra) st
  = (Raise OSError,
     mkState p (trace st ++ [EGet (report_url report_id) p; EOpen file_name])) /\
  change_filter_value_args W (report_id :: code :: file_name :: extra) st
  = (Raise OSError,
     mkState p (trace st ++ [EGet (report_url report_id) p; EOpen file_name])).
Proof.
  intros Hp Hf Hfile.
  rewrite (add_filter_args_scope W _ _ _ extra p st Hp),
          (change_filter_value_args_scope W _ _ _ extra p st Hp).
  split; now rewrite (update_report_filter_no_file W _ report_id code file_name
                        (mkState p (trace st)) raw Hf Hfile).
Qed.

Lemma missing_file_raises_witness :
  add_filter_args sample_world ["12"; "ea"; "nothing.txt"] start
  = (Raise OSError,
     mkState [] (trace start ++ [EGet (report_url "12") []; EOpen "nothing.txt"])) /\
  change_filter_value_args sample_world ["12"; "ea"; "nothing.txt"] start
  = (Raise OSError,
     mkState [] (trace start ++ [EGet (report_url "12") []; EOpen "nothing.txt"])).
Proof.
  apply (missing_file_raises sample_world "12" "ea" "nothing.txt" [] [] start
           scenario_a); first [reflexivity | repeat split; reflexivity].
Defined.

Lemma update_report_filter_raise W func (report_id code file_name contents : string)
  (st : state) (raw : value) (out : list string) (e : exn) :
  fetched W (params st) report_id raw ->
  file_content W file_name = Some contents ->
  func raw (Str.lower code)
       (str_list (read_values (Str.universal_newlines contents))) = (out, Raise e) ->
  update_report_filter W [report_id; code; file_name] func st
  = (Raise e,
     mkState (params st)
             (trace st ++ [EGet (report_url report_id) (params st); EOpen file_name]
                       ++ map EPrint out)).
Proof.
  intros Hf Hfile Hrun. unfold update_report_filter.
  unfold cbind at 1. rewrite (get_report_run W report_id st raw Hf).
  destruct Hf as (_ & _ & ->).
  unfold cbind at 1. unfold read_text, cbind at 1, emit. cbn [params trace].
  rewrite Hfile. unfold ret at 1. rewrite Hrun. cbn [fst snd].
  unfold cbind at 1. rewrite print_all_run. cbn [params trace].
  unfold cbind at 1, lift. now rewrite <- !app_assoc.
Qed.

Lemma remove_filter_body_raise W (report_id code : string)
  (st : state) (raw : value) (out : list string) (e : exn) :
  fetched W (params st) report_id raw ->
  remove_filter raw (Str.lower code) = (out, Raise e) ->
  remove_filter_body W report_id code st
  = (Raise e,
     mkState (params st)
             (trace st ++ [EGet (report_url report_id) (params st)] ++ map EPrint out)).
Proof.
  intros Hf Hrun. unfold remove_filter_body.
  unfold cbind at 1. rewrite (get_report_run W report_id st raw Hf).
  destruct Hf as (_ & _ & ->). rewrite Hrun. cbn [fst snd].
  unfold cbind at 1. rewrite print_all_run. cbn [params trace].
  unfold cbind at 1, lift. now rewrite <- !app_assoc.
Qed.

(** X15: when the fetched report has a card without a ['filters'] entry,
    the three commands, run with a code of the registry, raise an exception
    after the GET (and the opening of the values file): nothing is printed
    and nothing is posted. *)
Theorem bare_card_stops_commands W (report_id code name file_name contents : string)
  (extra : list string) (p : query) (st : state) (raw : value) :
  has_bare_card raw = true ->
  lookup (Str.lower code) filter_code_to_name_map = Some name ->
  scope_params extra = Some p ->
  fetched W p report_id raw ->
  file_content W file_name = Some contents ->
  exists e1 e2 e3,
    add_filter_args W (report_id :: code :: file_name :: extra) st
    = (Raise e1,
       mkState p (trace st ++ [EGet (report_url report_id) p; EOpen file_name])) /\
    change_filter_value_args W (report_id :: code :: file_name :: extra) st
    = (Raise e2,
       mkState p (trace st ++ [EGet (report_url report_id) p; EOpen file_name])) /\
    remove_filter_args W (report_id :: code :: extra) st
    = (Raise e3, mkState p (trace st ++ [EGet (report_url report_id) p])).
Proof.
  intros Hb E Hp Hf Hfile.
  set (vals := str_list (read_values (Str.universal_newlines contents))).
  assert (Ha : exists e, add_filter_value raw (Str.lower code) vals = ([], Raise e)).
  { unfold add_filter_value. rewrite E, deepcopy_same.
    destruct (for_widgets_bare_card (add_stmt name vals) raw) as [e ->]; eauto.
    intros dc F. unfold add_stmt. simpl. rewrite F. now exists KeyError. }
  assert (Hc : exists e, change_filter_value raw (Str.lower code) vals = ([], Raise e)).
  { unfold change_filter_value. rewrite E, deepcopy_same.
    destruct (for_widgets_bare_card (change_stmt name vals) raw) as [e ->]; eauto.
    intros dc F. unfold change_stmt. simpl. rewrite F. now exists KeyError. }
  assert (Hr : exists e, remove_filter raw (Str.lower code) = ([], Raise e)).
  { unfold remove_filter. rewrite E, deepcopy_same.
    destruct (for_widgets_bare_card (remove_stmt name) raw) as [e ->]; eauto.
    intros dc F. unfold remove_stmt. simpl. rewrite F. now exists KeyError. }
  destruct Ha as [e1 Ha], Hc as [e2 Hc], Hr as [e3 Hr].
  exists e1, e2, e3.
  rewrite (add_filter_args_scope W _ _ _ extra p st Hp),
          (change_filter_value_args_scope W _ _ _ extra p st Hp),
          (remove_filter_args_scope W _ _ extra p st Hp).
  rewrite (update_report_filter_raise W add_filter_value report_id code file_name
             contents (mkState p (trace st)) raw [] e1 Hf Hfile Ha).
  rewrite (update_report_filter_raise W change_filter_value report_id code file_name
             contents (mkState p (trace st)) raw [] e2 Hf Hfile Hc).
  rewrite (remove_filter_body_raise W report_id code (mkState p (trace st)) raw []
             e3 Hf Hr).
  cbn [params trace map]. now rewrite !app_nil_r.
Qed.

Lemma bare_card_stops_commands_witness :
  exists e1 e2 e3,
    add_filter_args bare_card_world ["12"; "LOC"; "values.txt"] start
    = (Raise e1,
       mkState [] (trace start ++ [EGet (report_url "12") []; EOpen "values.txt"])) /\
    change_filter_value_args bare_card_world ["12"; "LOC"; "values.txt"] start
    = (Raise e2,
       mkState [] (trace start ++ [EGet (report_url "12") []; EOpen "values.txt"])) /\
    remove_filter_args bare_card_world ["12"; "LOC"] start
    = (Raise e3, mkState [] (trace start ++ [EGet (report_url "12") []])).
Proof.
  apply (bare_card_stops_commands bare_card_world "12" "LOC" "Location" "values.txt"
           "a1" [] [] start bare_card_report);
    first [reflexivity | repeat split; reflexivity].
Defined.

(** *** Counting the posts of a run *)

Lemma quiet_bind {A B} (m : cli A) (k : A -> cli B) :
  quiet m -> (forall a, quiet (k a)) -> quiet (cbind m k).
Proof.
  intros Hm Hk st. unfold cbind. specialize (Hm st).
  destruct (m st) as [[a|e] s']; cbn [snd] in *.
  - now rewrite Hk.
  - exact Hm.
Qed.

Lemma quiet_ret {A} (a : A) : quiet (ret a).
Proof. intros st. reflexivity. Qed.

Lemma quiet_lift {A} (r : result A) : quiet (lift r).
Proof. intros st. reflexivity. Qed.

Lemma quiet_set_params (p : query) : quiet (set_params p).
Proof. intros st. reflexivity. Qed.

Lemma quiet_get_params : quiet get_params.
Proof. intros st. reflexivity. Qed.

Lemma quiet_emit (e : event) : posts [e] = [] -> quiet (emit e).
Proof.
  intros H st. unfold emit. cbn [snd trace]. now rewrite posts_app, H, app_nil_r.
Qed.

Lemma quiet_print (s : string) : quiet (print s).
Proof. now apply quiet_emit. Qed.

Lemma quiet_print_all (out : list string) : quiet (print_all out).
Proof.
  intros st. rewrite print_all_run. cbn [snd trace].
  now rewrite posts_app, posts_prints, app_nil_r.
Qed.

Lemma quiet_get_report W (report_id : string) : quiet (get_report W report_id).
Proof.
  unfold get_report. apply quiet_bind; [apply quiet_get_params|]. intros p.
  apply quiet_bind; [now apply quiet_emit|]. intros _.
  destruct (negb (ok (http_get W (report_url report_id) p))).
  - apply quiet_bind; [apply quiet_print|]. intros _. apply quiet_ret.
  - apply quiet_lift.
Qed.

Lemma quiet_read_text W (file_name : string) : quiet (read_text W file_name).
Proof.
  unfold read_text. apply quiet_bind; [now apply quiet_emit|]. intros _.
  destruct (file_content W file_name); [apply quiet_ret|apply quiet_lift].
Qed.

Lemma posts_once_quiet {A} (url : string) (m : cli A) : quiet m -> posts_once url m.
Proof.
  intros H st. exists []. rewrite H, app_nil_r. split; [reflexivity|now left].
Qed.

Lemma posts_once_after {A B} (url : string) (m : cli A) (k : A -> cli B) :
  quiet m -> (forall a, posts_once url (k a)) -> posts_once url (cbind m k).
Proof.
  intros Hm Hk st. unfold cbind. specialize (Hm st).
  destruct (m st) as [[a|e] s']; cbn [snd] in *.
  - rewrite <- Hm. apply Hk.
  - exists []. rewrite Hm, app_nil_r. split; [reflexivity|now left].
Qed.

Lemma posts_once_then {A B} (url : string) (m : cli A) (k : A -> cli B) :
  posts_once url m -> (forall a, quiet (k a)) -> posts_once url (cbind m k).
Proof.
  intros Hm Hk st. unfold cbind. specialize (Hm st).
  destruct (m st) as [[a|e] s']; cbn [snd] in *.
  - now rewrite Hk.
  - exact Hm.
Qed.

Lemma posts_once_submit (report_id : string) (raw new : value) :
  posts_once (update_url report_id) (submit_if_changed report_id raw new).
Proof.
  intros st. rewrite submit_if_changed_run. cbn [snd trace]. rewrite posts_app.
  destruct (py_eq new raw); cbn [posts].
  - exists []. split; [reflexivity|now left].
  - eexists. split; [reflexivity|]. right. now exists new.
Qed.

Lemma posts_once_update W func (report_id code file_name : string) :
  posts_once (update_url report_id)
             (update_report_filter W [report_id; code; file_name] func).
Proof.
  unfold update_report_filter.
  apply posts_once_after; [apply quiet_get_report|]. intros raw.
  destruct (is_None raw); [apply posts_once_quiet, quiet_ret|].
  apply posts_once_after; [apply quiet_read_text|]. intros contents. cbv zeta.
  apply posts_once_after; [apply quiet_print_all|]. intros _.
  apply posts_once_after; [apply quiet_lift|]. intros new.
  apply posts_once_then; [apply posts_once_submit|]. intros _.
  apply quiet_bind; [apply quiet_set_params|]. intros _. apply quiet_ret.
Qed.

Lemma posts_once_remove W (report_id code : string) :
  posts_once (update_url report_id) (remove_filter_body W report_id code).
Proof.
  unfold remove_filter_body.
  apply posts_once_after; [apply quiet_get_report|]. intros raw.
  destruct (is_None raw); [apply posts_once_quiet, quiet_ret|]. cbv zeta.
  apply posts_once_after; [apply quiet_print_all|]. intros _.
  apply posts_once_after; [apply quiet_lift|]. intros new.
  apply posts_once_then; [apply posts_once_submit|]. intros _.
  apply quiet_bind; [apply quiet_set_params|]. intros _. apply quiet_ret.
Qed.

Lemma posts_once_invalid (url : string) :
  posts_once url (cbind (print INVALID_ARGUMENTS_MSG) (fun _ => ret false)).
Proof.
  apply posts_once_quiet, quiet_bind; [apply quiet_print|]. intros _. apply quiet_ret.
Qed.

(** X16: whatever the service, the files, the arguments and the session,
    a run of one of the three commands sends at most one POST, and only to
    the update address of the report named by its first argument. *)
Theorem commands_post_at_most_once W (args : list string) (st : state) :
  at_most_one_post (update_url (hd "" args)) (posts (trace st))
                   (posts_of (add_filter_args W args st)) /\
  at_most_one_post (update_url (hd "" args)) (posts (trace st))
                   (posts_of (change_filter_value_args W args st)) /\
  at_most_one_post (update_url (hd "" args)) (posts (trace st))
                   (posts_of (remove_filter_args W args st)).
Proof.
  unfold posts_of. repeat split.
  - destruct args as [|a [|b [|c [|d [|e r]]]]]; cbn [hd];
      try apply (posts_once_invalid (update_url _) st);
      try apply (posts_once_invalid (update_url "") st).
    + apply (posts_once_after (update_url a) (set_params []));
        [apply quiet_set_params|]. intros _. apply posts_once_update.
    + apply (posts_once_after (update_url a) (set_params [("aid", d)]));
        [apply quiet_set_params|]. intros _. apply posts_once_update.
  - destruct args as [|a [|b [|c [|d [|e r]]]]]; cbn [hd];
      try apply (posts_once_invalid (update_url _) st);
      try apply (posts_once_invalid (update_url "") st).
    + apply (posts_once_after (update_url a) (set_params []));
        [apply quiet_set_params|]. intros _. apply posts_once_update.
    + apply (posts_once_after (update_url a) (set_params [("aid", d)]));
        [apply quiet_set_params|]. intros _. apply posts_once_update.
  - destruct args as [|a [|b [|c [|d r]]]]; cbn [hd];
      try apply (posts_once_invalid (update_url _) st);
      try apply (posts_once_invalid (update_url "") st).
    + apply (posts_once_after (update_url a) (set_params []));
        [apply quiet_set_params|]. intros _. apply posts_once_remove.
    + apply (posts_once_after (update_url a) (set_params [("aid", c)]));
        [apply quiet_set_params|]. intros _. apply posts_once_remove.
Qed.

(** *** Command lines and values *)

Lemma split_from_word (w cur rest : string) :
  no_space w = true ->
  Str.split_from cur (w ++ rest) = Str.split_from (cur ++ w) rest.
Proof.
  revert cur. induction w as [|c w IH]; intros cur; cbn [no_space append].
  - intros _. now rewrite append_empty.
  - rewrite andb_true_iff, negb_true_iff. intros [Hc Hw].
    cbn [Str.split_from]. rewrite Hc, IH by assumption.
    now rewrite append_assoc.
Qed.

Lemma split_from_blank (g rest : string) :
  blank g = true -> Str.split_from "" (g ++ rest) = Str.split_from "" rest.
Proof.
  induction g as [|c g IH]; cbn [blank append]; [reflexivity|].
  rewrite andb_true_iff. intros [Hc Hg].
  cbn [Str.split_from]. rewrite Hc. cbn [Str.flush Str.is_empty app]. now apply IH.
Qed.

Lemma split_from_gap (g cur rest : string) :
  blank g = true -> Str.is_empty g = false ->
  Str.split_from cur (g ++ rest) = Str.flush cur ++ Str.split_from "" rest.
Proof.
  destruct g as [|c g]; [discriminate|]. cbn [blank append].
  rewrite andb_true_iff. intros [Hc Hg] _.
  cbn [Str.split_from]. rewrite Hc. now rewrite split_from_blank.
Qed.

Lemma split_spaced (ws : list (string * string)) :
  well_spaced ws = true -> Str.split_from "" (spaced ws) = map fst ws.
Proof.
  induction ws as [|[w gap] r IH]; cbn [well_spaced spaced map fst]; [reflexivity|].
  rewrite !andb_true_iff. intros [[[Hw Hg] Hlast] Hr].
  unfold word in Hw. apply andb_true_iff in Hw as [Hne Hns].
  rewrite split_from_word by assumption. cbn [append].
  destruct (Str.is_empty gap) eqn:Eg.
  - destruct gap; [|discriminate]. destruct r; [|discriminate].
    cbn [spaced append Str.split_from map]. unfold Str.flush.
    now destruct (Str.is_empty w).
  - rewrite split_from_gap by assumption. rewrite IH by assumption.
    unfold Str.flush. now destruct (Str.is_empty w).
Qed.

(** X17: [parse_arg] returns the words of the command line in order: the
    white space before the first word, after the last one and between two
    words, however long, is dropped. *)
Theorem parse_arg_words (lead : string) (ws : list (string * string)) :
  blank lead = true -> well_spaced ws = true ->
  parse_arg (lead ++ spaced ws) = map fst ws.
Proof.
  intros Hl Hws. unfold parse_arg, Str.split.
  rewrite split_from_blank by assumption. now apply split_spaced.
Qed.

Lemma parse_arg_words_witness :
  parse_arg ("  " ++ spaced [("12", " "); ("EA", "   "); ("values.txt", "")])
  = map fst [("12", " "); ("EA", "   "); ("values.txt", "")].
Proof.
  apply (parse_arg_words "  " [("12", " "); ("EA", "   "); ("values.txt", "")]);
    reflexivity.
Defined.

Lemma no_space_snoc (cur : string) (c : ascii) :
  no_space cur = true -> Str.isspace c = false ->
  no_space (cur ++ String c "") = true.
Proof.
  intros H Hc. induction cur as [|x cur IH]; cbn [append no_space] in *.
  - now rewrite Hc.
  - apply andb_true_iff in H as [Hx Hcur]. now rewrite Hx, IH.
Qed.

Lemma flush_words (cur : string) :
  no_space cur = true -> forallb word (Str.flush cur) = true.
Proof.
  intros H. unfold Str.flush. destruct (Str.is_empty cur) eqn:E; [reflexivity|].
  cbn [forallb]. unfold word. now rewrite E, H.
Qed.

Lemma split_from_are_words (s cur : string) :
  no_space cur = true -> forallb word (Str.split_from cur s) = true.
Proof.
  revert cur. induction s as [|c s IH]; intros cur H; cbn [Str.split_from].
  - now apply flush_words.
  - destruct (Str.isspace c) eqn:Hc.
    + rewrite forallb_app, flush_words by assumption. now apply IH.
    + apply IH. now apply no_space_snoc.
Qed.

(** X18: whatever the command line, no argument that [parse_arg] returns is
    empty or holds white space. *)
Theorem parse_arg_gives_words (arg : string) :
  forallb word (parse_arg arg) = true.
Proof. unfold parse_arg, Str.split. now apply split_from_are_words. Qed.

Lemma rstrip_rstrip (s : string) : Str.rstrip (Str.rstrip s) = Str.rstrip s.
Proof.
  induction s as [|c s IH]; cbn [Str.rstrip]; [reflexivity|].
  destruct (Str.isspace c && Str.is_empty (Str.rstrip s)) eqn:E; [reflexivity|].
  cbn [Str.rstrip]. now rewrite IH, E.
Qed.

Lemma lstrip_head (s : string) :
  Str.lstrip s = "" \/
  exists c r, Str.lstrip s = String c r /\ Str.isspace c = false.
Proof.
  induction s as [|c s IH]; cbn [Str.lstrip]; [now left|].
  destruct (Str.isspace c) eqn:E; [exact IH|]. right. now exists c, s.
Qed.

Lemma strip_strip (s : string) : Str.strip (Str.strip s) = Str.strip s.
Proof.
  unfold Str.strip. destruct (lstrip_head s) as [->|(c & r & -> & Hc)].
  - reflexivity.
  - cbn [Str.rstrip]. rewrite Hc. cbn [andb Str.lstrip]. rewrite Hc.
    cbn [Str.rstrip]. rewrite Hc, rstrip_rstrip. reflexivity.
Qed.

Lemma one_line_lstrip (s : string) :
  one_line s = true -> one_line (Str.lstrip s) = true.
Proof.
  induction s as [|c s IH]; cbn [Str.lstrip one_line]; [reflexivity|].
  destruct (Str.isspace c).
  - rewrite andb_true_iff. intros [_ H]. now apply IH.
  - cbn [one_line]. trivial.
Qed.

Lemma one_line_rstrip (s : string) :
  one_line s = true -> one_line (Str.rstrip s) = true.
Proof.
  induction s as [|c s IH]; cbn [Str.rstrip one_line]; [reflexivity|].
  rewrite andb_true_iff. intros [Hc H].
  destruct (Str.isspace c && Str.is_empty (Str.rstrip s)); [reflexivity|].
  cbn [one_line]. now rewrite Hc, IH.
Qed.

Lemma one_line_snoc (cur : string) (c : ascii) :
  one_line cur = true -> Str.is_linebreak c = false ->
  one_line (cur ++ String c "") = true.
Proof.
  intros H Hc. induction cur as [|x cur IH]; cbn [append one_line] in *.
  - now rewrite Hc.
  - apply andb_true_iff in H as [Hx Hcur]. now rewrite Hx, IH.
Qed.

Lemma splitlines_from_one_line (n : nat) (s cur : string) :
  String.length s <= n -> one_line cur = true ->
  forallb one_line (Str.splitlines_from cur s) = true.
Proof.
  revert s cur. induction n as [|n IH]; intros s cur Hn Hcur.
  - destruct s; [|simpl in Hn; lia]. cbn [Str.splitlines_from].
    destruct (Str.is_empty cur); cbn [forallb]; [reflexivity|now rewrite Hcur].
  - destruct s as [|c r].
    + cbn [Str.splitlines_from].
      destruct (Str.is_empty cur); cbn [forallb]; [reflexivity|now rewrite Hcur].
    + cbn [String.length] in Hn. cbn [Str.splitlines_from].
      destruct (Str.is_linebreak c) eqn:Hc.
      * cbn [forallb]. rewrite Hcur. cbn [andb].
        destruct r as [|c' r']; [reflexivity|].
        cbn [String.length] in Hn.
        destruct (Ascii.eqb c Str.CR && Ascii.eqb c' Str.LF).
        -- apply IH; [lia|reflexivity].
        -- apply IH; [cbn [String.length]; lia|reflexivity].
      * apply IH; [lia|]. now apply one_line_snoc.
Qed.

(** X19: whatever the file holds, every value that the commands read from it
    is free of white space at its two ends ([strip] leaves it unchanged) and
    contains no line boundary. *)
Theorem values_are_clean (text : string) : Forall clean (read_values text).
Proof.
  unfold read_values. apply Forall_forall. intros v Hv.
  apply in_map_iff in Hv as (l & <- & Hl). split.
  - apply strip_strip.
  - unfold Str.strip. apply one_line_rstrip, one_line_lstrip.
    pose proof (splitlines_from_one_line (String.length text) text ""
                  (Nat.le_refl _) eq_refl) as H.
    rewrite forallb_forall in H. now apply H.
Qed.

(** *** Runs of the other commands *)

Lemma session_get_report_run W (report_id : string) (st : shell) (raw : value) :
  fetched W (sparams st) report_id raw ->
  session (get_report W report_id) st
  = (Ok raw,
     mkShell (sparams st) (log st ++ [Ev (EGet (report_url report_id) (sparams st))])).
Proof.
  intros Hf. unfold session.
  rewrite (get_report_run W report_id (mkState (sparams st) []) raw Hf).
  reflexivity.
Qed.

Lemma get_report_args_scope W S (report_id destination : string)
  (extra : list string) (p : query) (st : shell) :
  scope_params extra = Some p ->
  get_report_args W S (report_id :: destination :: extra) st
  = get_report_body W S report_id destination (mkShell p (log st)).
Proof.
  intros H. destruct extra as [|aid [|]]; try discriminate;
    injection H as <-; reflexivity.
Qed.

Lemma get_template_args_scope W S (report_id destination : string)
  (extra : list string) (p : query) (st : shell) :
  scope_params extra = Some p ->
  get_template_args W S (report_id :: destination :: extra) st
  = get_template_body W S report_id destination (mkShell p (log st)).
Proof.
  intros H. destruct extra as [|aid [|]]; try discriminate;
    injection H as <-; reflexivity.
Qed.

Lemma get_report_body_run W S (report_id destination : string) (st : shell)
  (raw : value) :
  fetched W (sparams st) report_id raw ->
  can_write S destination = true ->
  get_report_body W S report_id destination st
  = (Ok false,
     mkShell [] (log st ++ [Ev (EPrint "Getting your report");
                            Ev (EGet (report_url report_id) (sparams st));
                            OpenW destination;
                            Write destination (json_dumps S raw);
                            Ev (EPrint ("Your report is saved!" ++ NL))])).
Proof.
  intros Hf Hw. unfold get_report_body.
  unfold sbind at 1. unfold sprint at 1, say at 1. cbn [sparams log].
  unfold sbind at 1.
  rewrite (session_get_report_run W report_id (mkShell (sparams st) _) raw Hf).
  destruct Hf as (_ & _ & ->).
  unfold open_w, write, sprint, say, set_sparams, sret, slift, sbind.
  cbn [sparams log]. rewrite Hw. cbn [sparams log].
  now rewrite <- !app_assoc.
Qed.

Lemma get_template_body_run W S (report_id destination : string) (st : shell)
  (raw : value) (r : result value) :
  fetched W (sparams st) report_id raw ->
  can_write S destination = true ->
  get_template_report raw = r ->
  get_template_body W S report_id destination st
  = match r with
    | Ok template =>
        (Ok false,
         mkShell [] (log st ++ [Ev (EPrint "Getting your template report");
                                Ev (EGet (report_url report_id) (sparams st));
                                OpenW destination;
                                Write destination (json_dumps S template);
                                Ev (EPrint ("Your template report is saved!" ++ NL))]))
    | Raise e =>
        (Raise e,
         mkShell (sparams st)
                 (log st ++ [Ev (EPrint "Getting your template report");
                             Ev (EGet (report_url report_id) (sparams st));
                             OpenW destination]))
    end.
Proof.
  intros Hf Hw Ht. unfold get_template_body.
  unfold sbind at 1. unfold sprint at 1, say at 1. cbn [sparams log].
  unfold sbind at 1.
  rewrite (session_get_report_run W report_id (mkShell (sparams st) _) raw Hf).
  destruct Hf as (_ & _ & ->).
  unfold open_w, write, sprint, say, set_sparams, sret, slift, sbind.
  cbn [sparams log]. rewrite Hw, Ht. cbn [sparams log].
  destruct r; now rewrite <- !app_assoc.
Qed.

(** X20: when the report is fetched and the destination can be written,
    [get_report] writes the fetched report to the destination and
    [get_template] writes the report that [get_template_report] returns for
    it, each in one write after the GET; both end with the scope of the
    session reset. *)
Theorem reports_are_saved W S (report_id destination : string)
  (extra : list string) (p : query) (st : shell) (raw template : value) :
  scope_params extra = Some p ->
  fetched W p report_id raw ->
  can_write S destination = true ->
  get_template_report raw = Ok template ->
  get_report_args W S (report_id :: destination :: extra) st
  = (Ok false,
     mkShell [] (log st ++ [Ev (EPrint "Getting your report");
                            Ev (EGet (report_url report_id) p);
                            OpenW destination;
                            Write destination (json_dumps S raw);
                            Ev (EPrint ("Your report is saved!" ++ NL))])) /\
  get_template_args W S (report_id :: destination :: extra) st
  = (Ok false,
     mkShell [] (log st ++ [Ev (EPrint "Getting your template report");
                            Ev (EGet (report_url report_id) p);
                            OpenW destination;
                            Write destination (json_dumps S template);
                            Ev (EPrint ("Your template report is saved!" ++ NL))])).
Proof.
  intros Hp Hf Hw Ht.
  rewrite (get_report_args_scope W S _ _ extra p st Hp),
          (get_template_args_scope W S _ _ extra p st Hp).
  split.
  - apply (get_report_body_run W S report_id destination (mkShell p (log st)) raw);
      assumption.
  - now rewrite (get_template_body_run W S report_id destination (mkShell p (log st))
                   raw (Ok template) Hf Hw Ht).
Qed.

Lemma reports_are_saved_witness :
  get_report_args sample_world sample_services ["12"; "out.json"; "77"] shell_start
  = (Ok false,
     mkShell [] (log shell_start ++
                 [Ev (EPrint "Getting your report");
                  Ev (EGet (report_url "12") [("aid", "77")]);
                  OpenW "out.json";
                  Write "out.json" (json_dumps sample_services scenario_a);
                  Ev (EPrint ("Your report is saved!" ++ NL))])) /\
  get_template_args sample_world sample_services ["12"; "out.json"; "77"] shell_start
  = (Ok false,
     mkShell [] (log shell_start ++
                 [Ev (EPrint "Getting your template report");
                  Ev (EGet (report_url "12") [("aid", "77")]);
                  OpenW "out.json";
                  Write "out.json"
                        (json_dumps sample_services (walk template_filters scenario_a));
                  Ev (EPrint ("Your template report is saved!" ++ NL))])).
Proof.
  apply (reports_are_saved sample_world sample_services "12" "out.json" ["77"]
           [("aid", "77")] shell_start scenario_a (walk template_filters scenario_a));
    first [reflexivity | repeat split; reflexivity].
Defined.

(** X21: when [get_template_report] raises on the fetched report,
    [get_template] has already opened the destination for writing: the file
    is opened (and so emptied) but nothing is written to it, the exception
    leaves the command, and the session keeps the scope. *)
Theorem template_failure_empties_file W S (report_id destination : string)
  (extra : list string) (p : query) (st : shell) (raw : value) (e : exn) :
  scope_params extra = Some p ->
  fetched W p report_id raw ->
  can_write S destination = true ->
  get_template_report raw = Raise e ->
  get_template_args W S (report_id :: destination :: extra) st
  = (Raise e,
     mkShell p (log st ++ [Ev (EPrint "Getting your template report");
                           Ev (EGet (report_url report_id) p);
                           OpenW destination])).
Proof.
  intros Hp Hf Hw Ht.
  rewrite (get_template_args_scope W S _ _ extra p st Hp).
  now rewrite (get_template_body_run W S report_id destination (mkShell p (log st))
                 raw (Raise e) Hf Hw Ht).
Qed.

Lemma template_failure_empties_file_witness :
  get_template_args bare_card_world sample_services ["12"; "out.json"] shell_start
  = (Raise KeyError,
     mkShell [] (log shell_start ++ [Ev (EPrint "Getting your template report");
                                     Ev (EGet (report_url "12") []);
                                     OpenW "out.json"])).
Proof.
  apply (template_failure_empties_file bare_card_world sample_services "12" "out.json"
           [] [] shell_start bare_card_report KeyError);
    first [reflexivity | repeat split; reflexivity].
Defined.

(** *** Views of the log *)

Lemma sent_app (a b : list io) : sent (a ++ b) = sent a ++ sent b.
Proof.
  induction a as [|e a IH]; simpl; [reflexivity|].
  destruct e as [[]| | | |]; simpl; now rewrite IH.
Qed.

Lemma touched_app (a b : list io) : touched (a ++ b) = touched a ++ touched b.
Proof.
  induction a as [|e a IH]; simpl; [reflexivity|].
  destruct e; simpl; now rewrite IH.
Qed.

Lemma sent_events (tr : list event) : sent (map Ev tr) = posts tr.
Proof.
  induction tr as [|e tr IH]; simpl; [reflexivity|]. destruct e; now rewrite IH.
Qed.

Lemma touched_events (tr : list event) : touched (map Ev tr) = [].
Proof. induction tr as [|e tr IH]; simpl; trivial. Qed.

Section Keeps.

Variable X : Type.
Variable f : list io -> list X.
Hypothesis f_app : forall a b, f (a ++ b) = f a ++ f b.

Lemma keeps_bind {A B} (m : sh A) (k : A -> sh B) :
  keeps f m -> (forall a, keeps f (k a)) -> keeps f (sbind m k).
Proof.
  intros Hm Hk st. unfold sbind. specialize (Hm st).
  destruct (m st) as [[a|e] s']; cbn [snd] in *.
  - now rewrite Hk.
  - exact Hm.
Qed.

Lemma keeps_sret {A} (a : A) : keeps f (sret a).
Proof. intros st. reflexivity. Qed.

Lemma keeps_slift {A} (r : result A) : keeps f (slift r).
Proof. intros st. reflexivity. Qed.

Lemma keeps_set_sparams (p : query) : keeps f (set_sparams p).
Proof. intros st. reflexivity. Qed.

Lemma keeps_get_sparams : keeps f get_sparams.
Proof. intros st. reflexivity. Qed.

Lemma keeps_say (e : io) : f [e] = [] -> keeps f (say e).
Proof.
  intros H st. unfold say. cbn [snd log]. now rewrite f_app, H, app_nil_r.
Qed.

Lemma keeps_session {A} (m : cli A) :
  (forall p, f (map Ev (trace (snd (m (mkState p []))))) = []) ->
  keeps f (session m).
Proof.
  intros H st. unfold session. cbn [snd log]. now rewrite f_app, H, app_nil_r.
Qed.

(** After an exception nothing runs. *)
Lemma keeps_raised {A B} (e : exn) (k : A -> sh B) :
  keeps f (sbind (slift (Raise e)) k).
Proof. intros st. reflexivity. Qed.

End Keeps.

Lemma get_report_sends_nothing W (report_id : string) (p : query) :
  sent (map Ev (trace (snd (get_report W report_id (mkState p []))))) = [].
Proof.
  rewrite sent_events. now rewrite (quiet_get_report W report_id (mkState p [])).
Qed.

Lemma keeps_sent_sprint (s : string) : keeps sent (sprint s).
Proof. now apply keeps_say; [apply sent_app|]. Qed.

Lemma keeps_sent_open_w S (file_name : string) : keeps sent (open_w S file_name).
Proof.
  unfold open_w. apply keeps_bind; [now apply keeps_say; [apply sent_app|]|].
  intros _. destruct (can_write S file_name); [apply keeps_sret|apply keeps_slift].
Qed.

Lemma keeps_sent_session_get W (url : string) : keeps sent (session_get W url).
Proof.
  unfold session_get. apply keeps_bind; [apply keeps_get_sparams|]. intros p.
  apply keeps_bind; [now apply keeps_say; [apply sent_app|]|]. intros _.
  apply keeps_sret.
Qed.

Lemma keeps_sent_invalid :
  keeps sent (sbind (sprint INVALID_ARGUMENTS_MSG) (fun _ => sret false)).
Proof. apply keeps_bind; [apply keeps_sent_sprint|]. intros _. apply keeps_sret. Qed.

Lemma keeps_sent_get_report_body W S (report_id destination : string) :
  keeps sent (get_report_body W S report_id destination).
Proof.
  unfold get_report_body.
  apply keeps_bind; [apply keeps_sent_sprint|]. intros _.
  apply keeps_bind;
    [apply keeps_session; [apply sent_app|apply get_report_sends_nothing]|].
  intros report. destruct (is_None report); [apply keeps_sret|].
  apply keeps_bind; [apply keeps_sent_open_w|]. intros _.
  apply keeps_bind; [now apply keeps_say; [apply sent_app|]|]. intros _.
  apply keeps_bind; [apply keeps_sent_sprint|]. intros _.
  apply keeps_bind; [apply keeps_set_sparams|]. intros _. apply keeps_sret.
Qed.

Lemma keeps_sent_get_template_body W S (report_id destination : string) :
  keeps sent (get_template_body W S report_id destination).
Proof.
  unfold get_template_body.
  apply keeps_bind; [apply keeps_sent_sprint|]. intros _.
  apply keeps_bind;
    [apply keeps_session; [apply sent_app|apply get_report_sends_nothing]|].
  intros report. destruct (is_None report); [apply keeps_sret|].
  apply keeps_bind; [apply keeps_sent_open_w|]. intros _.
  apply keeps_bind; [apply keeps_slift|]. intros template.
  apply keeps_bind; [now apply keeps_say; [apply sent_app|]|]. intros _.
  apply keeps_bind; [apply keeps_sent_sprint|]. intros _.
  apply keeps_bind; [apply keeps_set_sparams|]. intros _. apply keeps_sret.
Qed.

Lemma keeps_sent_save W S (r : response) (destination : string) :
  keeps sent
    (sbind (open_w S destination) (fun _ =>
     sbind (slift (json_loads W (text r))) (fun v =>
     sbind (write destination (json_dumps S v)) (fun _ =>
     sbind (sprint saved_msg) (fun _ => sret false))))).
Proof.
  apply keeps_bind; [apply keeps_sent_open_w|]. intros _.
  apply keeps_bind; [apply keeps_slift|]. intros v.
  apply keeps_bind; [now apply keeps_say; [apply sent_app|]|]. intros _.
  apply keeps_bind; [apply keeps_sent_sprint|]. intros _. apply keeps_sret.
Qed.

(** X22: whatever the service, the files, the arguments and the session,
    the commands [get_report], [get_template], [get_endpoint_data] and
    [find_endpoint_agent] send no POST: they only read from the service. *)
Theorem reading_commands_send_nothing W S (args : list string) (st : shell) :
  sent (log (snd (get_report_args W S args st))) = sent (log st) /\
  sent (log (snd (get_template_args W S args st))) = sent (log st) /\
  sent (log (snd (get_endpoint_data_args W S args st))) = sent (log st) /\
  sent (log (snd (find_endpoint_agent_args W S args st))) = sent (log st).
Proof.
  repeat split.
  - destruct args as [|a [|b [|c [|d r]]]]; try apply keeps_sent_invalid.
    + apply (keeps_bind _ sent (set_sparams []));
        [apply keeps_set_sparams|]. intros _. apply keeps_sent_get_report_body.
    + apply (keeps_bind _ sent (set_sparams [("aid", c)]));
        [apply keeps_set_sparams|]. intros _. apply keeps_sent_get_report_body.
  - destruct args as [|a [|b [|c [|d r]]]]; try apply keeps_sent_invalid.
    + apply (keeps_bind _ sent (set_sparams []));
        [apply keeps_set_sparams|]. intros _. apply keeps_sent_get_template_body.
    + apply (keeps_bind _ sent (set_sparams [("aid", c)]));
        [apply keeps_set_sparams|]. intros _. apply keeps_sent_get_template_body.
  - destruct args as [|a [|b [|c r]]]; try apply keeps_sent_invalid.
    unfold get_endpoint_data_args. cbv zeta.
    apply keeps_bind.
    { destruct (has_key _ _); [apply keeps_sret|apply keeps_sent_sprint]. }
    intros _. apply keeps_bind; [apply keeps_slift|]. intros url.
    apply keeps_bind; [apply keeps_sent_session_get|]. intros r.
    destruct (negb (ok r)).
    + apply keeps_bind; [apply keeps_sent_sprint|]. intros _. apply keeps_sret.
    + apply keeps_bind; [apply keeps_slift|]. intros t.
      apply keeps_bind; [apply keeps_slift|]. intros _.
      apply keeps_sent_save.
  - destruct args as [|a [|b r]]; try apply keeps_sent_invalid.
    unfold find_endpoint_agent_args.
    apply keeps_bind; [apply keeps_sent_session_get|]. intros r0.
    destruct (negb (ok r0)).
    + apply keeps_bind; [apply keeps_sent_sprint|]. intros _. apply keeps_sret.
    + apply keeps_sent_save.
Qed.

Lemma keeps_touched_sprint (s : string) : keeps touched (sprint s).
Proof. now apply keeps_say; [apply touched_app|]. Qed.

(** X23: [get_endpoint_data] never saves anything.  With a data type and a
    destination it ends in one of three ways: [KeyError] for a type that is
    not in its table, after the message that the type is unsupported and
    before any request; the error message when the service refuses the GET;
    [AttributeError], raised by [r.txt], when the service answers.  Whatever
    its arguments, it opens no file for writing and writes to none. *)
Theorem endpoint_data_never_saved W S (data_type_code destination : string)
  (args : list string) (st : shell) :
  get_endpoint_data_args W S [data_type_code; destination] st
  = endpoint_data_outcome W data_type_code st /\
  touched (log (snd (get_endpoint_data_args W S args st))) = touched (log st).
Proof.
  split.
  - unfold get_endpoint_data_args, endpoint_data_outcome. cbv zeta.
    unfold has_key.
    destruct (lookup (Str.lower data_type_code) data_type_to_api_url_map) as [url|].
    + unfold session_get, txt, get_sparams, say, sprint, say, sret, slift, sbind.
      cbn [sparams log].
      destruct (ok (http_get W url (sparams st))); cbn [negb sparams log].
      * reflexivity.
      * now rewrite <- app_assoc.
    + reflexivity.
  - destruct args as [|a [|b [|c r]]];
      try (apply keeps_bind; [apply keeps_touched_sprint|]; intros _;
           apply keeps_sret).
    unfold get_endpoint_data_args. cbv zeta.
    apply keeps_bind.
    { destruct (has_key _ _); [apply keeps_sret|apply keeps_touched_sprint]. }
    intros _. apply keeps_bind; [apply keeps_slift|]. intros url.
    apply keeps_bind.
    { unfold session_get. apply keeps_bind; [apply keeps_get_sparams|]. intros p.
      apply keeps_bind; [now apply keeps_say; [apply touched_app|]|]. intros _.
      apply keeps_sret. }
    intros r. destruct (negb (ok r)).
    + apply keeps_bind; [apply keeps_touched_sprint|]. intros _. apply keeps_sret.
    + unfold txt. apply keeps_raised.
Qed.

(** X24: [find_endpoint_agent] does not use its search keywords: with a
    destination and at least one keyword, whatever the keywords are, it
    requests the list of all endpoint agents, in the scope the session was
    left in, and, when the service answers and the destination can be
    written, writes the whole answer to the destination. *)
Theorem find_saves_all_agents W S (destination k : string) (ks : list string)
  (st : shell) (v : value) :
  ok (http_get W (API_BASE ++ "/endpoint-agents.json") (sparams st)) = true ->
  json_loads W (text (http_get W (API_BASE ++ "/endpoint-agents.json") (sparams st)))
  = Ok v ->
  can_write S destination = true ->
  find_endpoint_agent_args W S (destination :: k :: ks) st
  = (Ok false,
     mkShell (sparams st)
             (log st ++ [Ev (EGet (API_BASE ++ "/endpoint-agents.json") (sparams st));
                         OpenW destination;
                         Write destination (json_dumps S v);
                         Ev (EPrint saved_msg)])).
Proof.
  intros Hok Hj Hw. unfold find_endpoint_agent_args.
  unfold session_get, open_w, write, get_sparams, sprint, say, sret, slift, sbind.
  cbn [sparams log]. rewrite Hok. cbn [negb sparams log]. rewrite Hw, Hj.
  cbn [sparams log]. now rewrite <- !app_assoc.
Qed.

Lemma find_saves_all_agents_witness :
  find_endpoint_agent_args agents_world sample_services
    ["agents.json"; "laptop"; "berlin"] (mkShell [("aid", "77")] [])
  = (Ok false,
     mkShell [("aid", "77")]
             ([] ++ [Ev (EGet (API_BASE ++ "/endpoint-agents.json") [("aid", "77")]);
                     OpenW "agents.json";
                     Write "agents.json"
                           (json_dumps sample_services
                              (VDict [("agents",
                                       VList [VDict [("agentName", VStr "pc-1")]])]));
                     Ev (EPrint saved_msg)])).
Proof.
  apply (find_saves_all_agents agents_world sample_services "agents.json" "laptop"
           ["berlin"] (mkShell [("aid", "77")] [])); reflexivity.
Defined.

Lemma export_body_run W S (auth : string * string)
  (report_id src dest : string) (st : shell) (raw : value) :
  fetched W [("aid", src)] report_id raw ->
  export_body W S auth report_id src dest st
  = match (if mem (answer S rename_prompt) positive_answer
           then setitem raw "title" (VStr (answer S name_prompt))
           else Ok raw) with
    | Ok report =>
        (Ok false,
         mkShell [] (log st ++ [Ev (EGet (report_url report_id) [("aid", src)])]
                           ++ export_prompts S
                           ++ [Create create_url [("aid", dest)] auth report;
                               Ev (EPrint (export_msg
                                             (create S create_url [("aid", dest)]
                                                     auth report) dest))]))
    | Raise e =>
        (Raise e,
         mkShell [("aid", src)]
                 (log st ++ [Ev (EGet (report_url report_id) [("aid", src)])]
                         ++ export_prompts S))
    end.
Proof.
  intros Hf. unfold export_body.
  unfold sbind at 1. unfold set_sparams at 1. cbn [sparams log].
  unfold sbind at 1.
  rewrite (session_get_report_run W report_id (mkShell [("aid", src)] (log st)) raw Hf).
  destruct Hf as (_ & _ & ->). cbn [sparams log].
  unfold export_prompts, export_msg.
  destruct (mem (answer S rename_prompt) positive_answer) eqn:Ha.
  - unfold input, say, sprint, say, set_sparams, sret, slift, sbind.
    cbn [sparams log]. rewrite Ha.
    destruct (setitem raw "title" (VStr (answer S name_prompt))) as [report|e];
      cbn [sparams log].
    + destruct (is_401 _); [|destruct (no_text _)];
        cbn [sparams log]; now rewrite <- !app_assoc.
    + now rewrite <- !app_assoc.
  - unfold input, say, sprint, say, set_sparams, sret, slift, sbind.
    cbn [sparams log]. rewrite Ha. cbn [sparams log].
    destruct (is_401 _); [|destruct (no_text _)];
      cbn [sparams log]; now rewrite <- !app_assoc.
Qed.

Lemma export_args_auth W S (report_id src dest : string) (extra : list string)
  (auth : string * string) (st : shell) :
  export_auth S extra = Some auth ->
  export_to_acc_group_args W S (report_id :: src :: dest :: extra) st
  = export_body W S auth report_id src dest st.
Proof.
  intros H. destruct extra as [|u [|t [|]]]; try discriminate;
    injection H as <-; reflexivity.
Qed.

(** X25: the export of a report that is a dictionary fetches it in the
    source account group and sends one POST to the create address, in the
    destination account group, with the credentials of the session or
    those given as fourth and fifth argument; the report sent is the one
    fetched, with its title replaced by the name the user typed when the
    answer to the first question is one of [positive_answer], and unchanged
    otherwise.  The session ends with its scope reset. *)
Theorem export_creates_report W S (report_id src dest : string)
  (extra : list string) (auth : string * string) (st : shell) (d : dict) :
  export_auth S extra = Some auth ->
  fetched W [("aid", src)] report_id (VDict d) ->
  export_to_acc_group_args W S (report_id :: src :: dest :: extra) st
  = (Ok false,
     mkShell [] (log st ++ [Ev (EGet (report_url report_id) [("aid", src)])]
                       ++ export_prompts S
                       ++ [Create create_url [("aid", dest)] auth (exported S d);
                           Ev (EPrint (export_msg
                                         (create S create_url [("aid", dest)] auth
                                                 (exported S d)) dest))])).
Proof.
  intros Ha Hf. rewrite (export_args_auth W S _ _ _ extra auth st Ha).
  rewrite (export_body_run W S auth report_id src dest st (VDict d) Hf).
  unfold exported. now destruct (mem (answer S rename_prompt) positive_answer).
Qed.

Lemma export_creates_report_witness :
  export_to_acc_group_args sample_world sample_services
    ["12"; "src"; "dst"; "bob"; "secret"] shell_start
  = (Ok false,
     mkShell [] (log shell_start
                 ++ [Ev (EGet (report_url "12") [("aid", "src")])]
                 ++ export_prompts sample_services
                 ++ [Create create_url [("aid", "dst")] ("bob", "secret")
                            (exported sample_services
                               [("title", VStr "Weekly");
                                ("widgets", VList [
                                   VDict [("type", VStr "table");
                                          ("filters",
                                           VDict [("Connection", VList [VStr "x"]);
                                                  ("Location", VList [VStr "y"])])]])]);
                     Ev (EPrint (export_msg (mkCreation false false) "dst"))])).
Proof.
  apply (export_creates_report sample_world sample_services "12" "src" "dst"
           ["bob"; "secret"] ("bob", "secret") shell_start);
    first [reflexivity | repeat split; reflexivity].
Defined.

(** X26: when the fetched report is not a dictionary (and not [None]) and
    the user asks for a new name, the export raises [TypeError] at
    [report['title'] = new_name], after the two prompts: no POST is sent and
    the session keeps the source account group as its scope. *)
Theorem export_rename_needs_dict W S (report_id src dest : string)
  (extra : list string) (auth : string * string) (st : shell) (raw : value) :
  export_auth S extra = Some auth ->
  fetched W [("aid", src)] report_id raw ->
  is_dict raw = false ->
  mem (answer S rename_prompt) positive_answer = true ->
  export_to_acc_group_args W S (report_id :: src :: dest :: extra) st
  = (Raise TypeError,
     mkShell [("aid", src)]
             (log st ++ [Ev (EGet (report_url report_id) [("aid", src)]);
                         Input rename_prompt; Input name_prompt])).
Proof.
  intros Ha Hf Hd Hy. rewrite (export_args_auth W S _ _ _ extra auth st Ha).
  rewrite (export_body_run W S auth report_id src dest st raw Hf).
  unfold export_prompts. rewrite Hy.
  destruct raw as [| | | | |d]; try reflexivity. discriminate.
Qed.

Lemma export_rename_needs_dict_witness :
  export_to_acc_group_args list_world sample_services ["12"; "src"; "dst"] shell_start
  = (Raise TypeError,
     mkShell [("aid", "src")]
             (log shell_start ++ [Ev (EGet (report_url "12") [("aid", "src")]);
                                  Input rename_prompt; Input name_prompt])).
Proof.
  apply (export_rename_needs_dict list_world sample_services "12" "src" "dst" []
           ("user", "token") shell_start (VList []));
    first [reflexivity | repeat split; reflexivity].
Defined.

(** *** Counting the posts of the export *)

Lemma sends_once_keeps {A} (url : string) (m : sh A) :
  keeps sent m -> sends_once url m.
Proof.
  intros H st. exists []. rewrite H, app_nil_r. split; [reflexivity|now left].
Qed.

Lemma sends_once_after {A B} (url : string) (m : sh A) (k : A -> sh B) :
  keeps sent m -> (forall a, sends_once url (k a)) -> sends_once url (sbind m k).
Proof.
  intros Hm Hk st. unfold sbind. specialize (Hm st).
  destruct (m st) as [[a|e] s']; cbn [snd] in *.
  - rewrite <- Hm. apply Hk.
  - exists []. rewrite Hm, app_nil_r. split; [reflexivity|now left].
Qed.

Lemma sends_once_then {A B} (url : string) (m : sh A) (k : A -> sh B) :
  sends_once url m -> (forall a, keeps sent (k a)) -> sends_once url (sbind m k).
Proof.
  intros Hm Hk st. unfold sbind. specialize (Hm st).
  destruct (m st) as [[a|e] s']; cbn [snd] in *.
  - now rewrite Hk.
  - exact Hm.
Qed.

Lemma keeps_sent_input S (prompt : string) : keeps sent (input S prompt).
Proof.
  unfold input. apply keeps_bind; [now apply keeps_say; [apply sent_app|]|].
  intros _. apply keeps_sret.
Qed.

Lemma sends_once_export_body W S (auth : string * string)
  (report_id src dest : string) :
  sends_once create_url (export_body W S auth report_id src dest).
Proof.
  unfold export_body.
  apply sends_once_after; [apply keeps_set_sparams|]. intros _.
  apply sends_once_after;
    [apply keeps_session; [apply sent_app|apply get_report_sends_nothing]|].
  intros report. destruct (is_None report); [apply sends_once_keeps, keeps_sret|].
  apply sends_once_after; [apply keeps_sent_input|]. intros a.
  apply sends_once_after.
  { destruct (mem a positive_answer); [|apply keeps_sret].
    apply keeps_bind; [apply keeps_sent_input|]. intros n. apply keeps_slift. }
  intros report'. apply sends_once_then.
  { intros st. unfold say. cbn [snd log]. rewrite sent_app. cbn [sent].
    eexists. split; [reflexivity|]. right. now exists report'. }
  intros _. cbv zeta. apply keeps_bind.
  { destruct (is_401 _); [|destruct (no_text _)]; apply keeps_sent_sprint. }
  intros _. apply keeps_bind; [apply keeps_set_sparams|]. intros _. apply keeps_sret.
Qed.

(** X27: whatever the service, the answers of the user, the arguments and
    the session, the export sends at most one POST, and only to the create
    address: it never updates a report. *)
Theorem export_sends_at_most_once W S (args : list string) (st : shell) :
  at_most_one_post create_url (sent (log st))
                   (sent (log (snd (export_to_acc_group_args W S args st)))).
Proof.
  destruct args as [|a [|b [|c [|d [|e [|g r]]]]]];
    try (apply (sends_once_keeps create_url _ keeps_sent_invalid st)).
  - apply sends_once_export_body.
  - apply sends_once_export_body.
Qed.

(** *** Credentials *)

Lemma is_empty_rstrip (s : string) : Str.is_empty (Str.rstrip s) = blank s.
Proof.
  induction s as [|c s IH]; cbn [Str.rstrip blank]; [reflexivity|].
  rewrite <- IH. now destruct (Str.isspace c && Str.is_empty (Str.rstrip s)) eqn:E.
Qed.

Lemma blank_lstrip (s : string) : blank (Str.lstrip s) = blank s.
Proof.
  induction s as [|c s IH]; cbn [Str.lstrip blank]; [reflexivity|].
  destruct (Str.isspace c) eqn:E; cbn [andb blank]; [exact IH|]. now rewrite E.
Qed.

Lemma erroneous_blank (x : string) : ArgParser.erroneous (Some x) = blank x.
Proof.
  unfold ArgParser.erroneous, Str.strip. rewrite is_empty_rstrip, blank_lstrip.
  destruct x; reflexivity.
Qed.

(** X28: [ArgParser] keeps the credentials exactly when the username and the
    token are both given and each holds a character that is not white
    space; it keeps them as they are given, white space included. *)
Theorem credentials_are_kept_iff (username token : option string) (u t : string) :
  ArgParser.init username token = ArgParser.Ready u t <->
  username = Some u /\ token = Some t /\ blank u = false /\ blank t = false.
Proof.
  unfold ArgParser.init. split.
  - destruct username as [x|]; [|discriminate].
    rewrite erroneous_blank. destruct (blank x) eqn:Bx; [discriminate|].
    destruct token as [y|]; [|discriminate].
    rewrite erroneous_blank. destruct (blank y) eqn:By; [discriminate|].
    cbn [ArgParser.show]. intros [= <- <-]. auto.
  - intros (-> & -> & Bu & Bt). rewrite !erroneous_blank, Bu, Bt. reflexivity.
Qed.

Lemma credentials_are_kept_iff_witness :
  ArgParser.init (Some " joe ") (Some "t0k3n") = ArgParser.Ready " joe " "t0k3n".
Proof.
  apply (credentials_are_kept_iff (Some " joe ") (Some "t0k3n") " joe " "t0k3n").
  repeat split; reflexivity.
Defined.
